(** * hetznercloud/csi: the idempotent volume service and process startup

    A shallow embedding of
    - [volumes.IdempotentService] (Create, Delete, Attach, Detach),
    - the in-memory backend [sanityVolumeService] of driver/sanity_test.go,
    - the startup sequence of [main].

    The Go code is effectful: every method of [IdempotentService] is a short
    sequence of calls into a backend [volumes.Service], and [main] is a
    sequence of calls into the operating system and the cloud API.  Both are
    embedded as programs over a signature of calls ([Prog]); a program is run
    against a handler that answers each call from a world of its own, and the
    run records the calls with their answers in order.  Statements quantified
    over every handler hold for every backend and every environment, also
    one whose answers depend on the history or on concurrent clients. *)

From Stdlib Require Import List String Ascii ZArith NArith Bool Lia.
Import ListNotations.
Local Open Scope string_scope.
Local Open Scope list_scope.

(** ** Programs over a signature of calls *)

(** How a Go program stops other than by returning: a runtime panic (here
    always a nil pointer dereference) or [os.Exit code]. *)
Inductive halt : Type :=
| Panicked
| Exited (code : Z).

Inductive outcome (R : Type) : Type :=
| Returned (r : R)
| Halted (h : halt).
Arguments Returned {R} r.
Arguments Halted {R} h.

Section Programs.
Context {E : Type -> Type}.

Inductive Prog (R : Type) : Type :=
| Ret (r : R)
| Stop (h : halt)
| Vis {X : Type} (e : E X) (k : X -> Prog R).
Arguments Ret {R} r.
Arguments Stop {R} h.
Arguments Vis {R X} e k.

Definition call {X : Type} (e : E X) : Prog X := Vis e Ret.

Fixpoint bind {A B : Type} (m : Prog A) (f : A -> Prog B) : Prog B :=
  match m with
  | Ret a => f a
  | Stop h => Stop h
  | Vis e k => Vis e (fun x => bind (k x) f)
  end.

(** A handler answers each call from its world [W]; [obs] is what the trace
    keeps of a call and its answer. *)
Context {Ev : Type} (obs : forall X, E X -> X -> Ev).

Section Run.
Context {W : Type} (handle : forall X, E X -> W -> X * W).

Fixpoint run {R : Type} (p : Prog R) (w : W) : outcome R * W * list Ev :=
  match p with
  | Ret r => (Returned r, w, [])
  | Stop h => (Halted h, w, [])
  | Vis e k =>
      let (x, w1) := handle _ e w in
      let '(o, w2, tr) := run (k x) w1 in
      (o, w2, obs _ e x :: tr)
  end.
End Run.
End Programs.
Arguments Prog E R : clear implicits.
Arguments Ret {E R} r.
Arguments Stop {E R} h.
Arguments Vis {E R X} e k.

Notation "x <- c ;; k" := (Vis c (fun x => k))
  (at level 61, c at next level, right associativity).
Notation "' p <- c ;; k" := (Vis c (fun x => let 'p := x in k))
  (at level 61, p pattern, c at next level, right associativity).

(** ** Traces: what happened before what *)

Section Traces.
Context {Ev : Type}.

(** [x] occurs in [tr] with [pre] before it and [post] after it. *)
Definition occurs (tr pre : list Ev) (x : Ev) (post : list Ev) : Prop :=
  tr = pre ++ x :: post.
End Traces.

(** ** Package csi: volumes and servers *)

(** Modelled from the spec: the declarations of [csi.Server] and [csi.Volume]
    are not among the sources; the fields are the ones the code reads and
    writes ([ID] is [uint64], [Size] is a Go [int] that is only compared, never
    computed with, so it is an integer without wrap-around). *)
Module Server.
Record t : Type := { ID : N }.
End Server.

Module Volume.
Record t : Type := {
  ID : N;
  Name : string;
  Size : Z;
  Location : string;
  Server : option Server.t   (* *csi.Server, nil when unattached *)
}.
End Volume.

(** ** Package volumes: errors, options and the backend interface *)

(** Modelled from the spec: the sentinel errors of package volumes are declared
    outside the sources; these are the kinds the code and the spec name.  Go
    compares them by identity, so an error of any other origin ([ErrOpaque])
    equals none of them. *)
Inductive error : Type :=
| ErrVolumeNotFound
| ErrVolumeAlreadyExists
| ErrServerNotFound
| ErrNotAttached
| ErrAttachLimitReached
| ErrOpaque (msg : string).

Definition error_eqb (a b : error) : bool :=
  match a, b with
  | ErrVolumeNotFound, ErrVolumeNotFound => true
  | ErrVolumeAlreadyExists, ErrVolumeAlreadyExists => true
  | ErrServerNotFound, ErrServerNotFound => true
  | ErrNotAttached, ErrNotAttached => true
  | ErrAttachLimitReached, ErrAttachLimitReached => true
  | ErrOpaque m, ErrOpaque n => String.eqb m n
  | _, _ => false
  end.

(** Modelled from the spec: [volumes.CreateOpts] (name, minSize, maxSize with 0
    meaning unbounded, location). *)
Module CreateOpts.
Record t : Type := {
  Name : string;
  MinSize : Z;
  MaxSize : Z;
  Location : string
}.
End CreateOpts.

(** The interface [volumes.Service].  A Go method returning a
    volume pointer and an error answers with a pair of options: either component
    may be nil independently. *)
Inductive Service : Type -> Type :=
| Service_Create (opts : CreateOpts.t) : Service (option Volume.t * option error)
| Service_GetByID (id : N) : Service (option Volume.t * option error)
| Service_GetByName (name : string) : Service (option Volume.t * option error)
| Service_Delete (volume : Volume.t) : Service (option error)
| Service_Attach (volume : Volume.t) (server : Server.t) : Service (option error)
| Service_Detach (volume : Volume.t) : Service (option error).

(** A backend call together with its answer. *)
Inductive BackendEvent : Type :=
| EvCreate (opts : CreateOpts.t) (r : option Volume.t * option error)
| EvGetByID (id : N) (r : option Volume.t * option error)
| EvGetByName (name : string) (r : option Volume.t * option error)
| EvDelete (volume : Volume.t) (r : option error)
| EvAttach (volume : Volume.t) (server : Server.t) (r : option error)
| EvDetach (volume : Volume.t) (r : option error).

Definition observe (X : Type) (c : Service X) : X -> BackendEvent :=
  match c in Service X return X -> BackendEvent with
  | Service_Create opts => EvCreate opts
  | Service_GetByID id => EvGetByID id
  | Service_GetByName name => EvGetByName name
  | Service_Delete volume => EvDelete volume
  | Service_Attach volume server => EvAttach volume server
  | Service_Detach volume => EvDetach volume
  end.

(** The calls that only read remote state. *)
Definition is_read (ev : BackendEvent) : bool :=
  match ev with
  | EvGetByID _ _ | EvGetByName _ _ => true
  | _ => false
  end.

Definition is_create (ev : BackendEvent) : bool :=
  match ev with EvCreate _ _ => true | _ => false end.

(** A backend: a world and the answer to each call. *)
Record Backend : Type := {
  World : Type;
  answer : forall X, Service X -> World -> X * World
}.

Definition exec (B : Backend) {R} (p : Prog Service R) (w : World B)
  : outcome R * World B * list BackendEvent :=
  run observe (answer B) p w.

(** ** volumes.IdempotentService

    The receiver only holds the logger and the backend; logging is left out,
    except that a log call which dereferences a pointer panics when the
    pointer is nil.  The [*csi.Volume] and [*csi.Server] arguments are the
    non-nil ones the driver passes. *)
Module IdempotentService.

Definition Create (opts : CreateOpts.t)
  : Prog Service (option Volume.t * option error) :=
  '(volume, err) <- Service_Create opts ;;
  match err with
  | None =>
      match volume with
      | None => Stop Panicked            (* volume.ID in the log call *)
      | Some volume => Ret (Some volume, None)
      end
  | Some err =>
      if error_eqb err ErrVolumeAlreadyExists then
        '(existingVolume, err) <- Service_GetByName (CreateOpts.Name opts) ;;
        match err with
        | Some err => Ret (None, Some err)
        | None =>
            match existingVolume with
            | None => Ret (None, Some ErrVolumeAlreadyExists)
            | Some existingVolume =>
                if (Volume.Size existingVolume <? CreateOpts.MinSize opts)%Z then
                  Ret (None, Some ErrVolumeAlreadyExists)
                else if ((CreateOpts.MaxSize opts >? 0)%Z
                         && (Volume.Size existingVolume >? CreateOpts.MaxSize opts)%Z)%bool then
                  Ret (None, Some ErrVolumeAlreadyExists)
                else if negb (String.eqb (Volume.Location existingVolume)
                                         (CreateOpts.Location opts)) then
                  Ret (None, Some ErrVolumeAlreadyExists)
                else
                  Ret (Some existingVolume, None)
            end
        end
      else
        Ret (None, Some err)
  end.

Definition GetByID (id : N) : Prog Service (option Volume.t * option error) :=
  call (Service_GetByID id).

Definition GetByName (name : string) : Prog Service (option Volume.t * option error) :=
  call (Service_GetByName name).

Definition Delete (volume : Volume.t) : Prog Service (option error) :=
  _ <- Service_Detach volume ;;
  err <- Service_Delete volume ;;
  match err with
  | Some ErrVolumeNotFound => Ret None
  | None => Ret None
  | Some err => Ret (Some err)
  end.

(** [vol.Server != nil && vol.Server.ID != server.ID] *)
Definition attached_elsewhere (vol : Volume.t) (server : Server.t) : bool :=
  match Volume.Server vol with
  | Some s => negb (N.eqb (Server.ID s) (Server.ID server))
  | None => false
  end.

(** [vol.Server != nil && vol.Server.ID == server.ID] *)
Definition attached_here (vol : Volume.t) (server : Server.t) : bool :=
  match Volume.Server vol with
  | Some s => N.eqb (Server.ID s) (Server.ID server)
  | None => false
  end.

Definition Attach (volume : Volume.t) (server : Server.t)
  : Prog Service (option error) :=
  '(vol, err) <- Service_GetByID (Volume.ID volume) ;;
  match err with
  | Some err => Ret (Some err)
  | None =>
      match vol with
      | None => Stop Panicked            (* vol.Server on a nil vol *)
      | Some vol =>
          let attach :=
            attachErr <- Service_Attach volume server ;;
            match attachErr with
            | None => Ret None
            | Some attachErr =>
                if attached_here vol server then Ret None
                else Ret (Some attachErr)
            end in
          if attached_elsewhere vol server then
            _ <- Service_Detach volume ;;   (* the error is only logged *)
            attach
          else attach
      end
  end.

Definition Detach (volume : Volume.t) : Prog Service (option error) :=
  err <- Service_Detach volume ;;
  match err with
  | Some ErrNotAttached => Ret None
  | None => Ret None
  | Some err => Ret (Some err)
  end.

End IdempotentService.

(** ** driver/sanity_test.go: the in-memory backend

    [sanityVolumeService] keeps its volumes in a [list.List], in insertion
    order; every method holds the mutex for its whole body, so each is one
    atomic step on that list.  The stored volumes are never written to after
    they are created, so the list of pointers is a list of values. *)
Module sanityVolumeService.

Definition state : Type := list Volume.t.

Definition by_name (name : string) (v : Volume.t) : bool :=
  String.eqb (Volume.Name v) name.

Definition by_id (id : N) (v : Volume.t) : bool :=
  N.eqb (Volume.ID v) id.

Definition Create (opts : CreateOpts.t) (s : state)
  : (option Volume.t * option error) * state :=
  match find (by_name (CreateOpts.Name opts)) s with
  | Some _ => ((None, Some ErrVolumeAlreadyExists), s)
  | None =>
      let volume := {|
        Volume.ID := N.of_nat (List.length s + 1);
        Volume.Name := CreateOpts.Name opts;
        Volume.Size := CreateOpts.MinSize opts;
        Volume.Location := CreateOpts.Location opts;
        Volume.Server := None |} in
      ((Some volume, None), s ++ [volume])
  end.

Definition GetByID (id : N) (s : state)
  : (option Volume.t * option error) * state :=
  match find (by_id id) s with
  | Some v => ((Some v, None), s)
  | None => ((None, Some ErrVolumeNotFound), s)
  end.

Definition GetByName (name : string) (s : state)
  : (option Volume.t * option error) * state :=
  match find (by_name name) s with
  | Some v => ((Some v, None), s)
  | None => ((None, Some ErrVolumeNotFound), s)
  end.

(** [s.volumes.Remove(e)] at the first element with the volume's ID. *)
Fixpoint remove_first (id : N) (s : state) : option state :=
  match s with
  | [] => None
  | v :: s' =>
      if by_id id v then Some s'
      else match remove_first id s' with
           | Some s'' => Some (v :: s'')
           | None => None
           end
  end.

Definition Delete (volume : Volume.t) (s : state) : option error * state :=
  match remove_first (Volume.ID volume) s with
  | Some s' => (None, s')
  | None => (Some ErrVolumeNotFound, s)
  end.

Definition Attach (volume : Volume.t) (server : Server.t) (s : state)
  : option error * state := (None, s).

(** The test double's Detach also takes the server and ignores both. *)
Definition Detach (volume : Volume.t) (s : state) : option error * state :=
  (None, s).

Definition dispatch (X : Type) (c : Service X) : state -> X * state :=
  match c in Service X return state -> X * state with
  | Service_Create opts => Create opts
  | Service_GetByID id => GetByID id
  | Service_GetByName name => GetByName name
  | Service_Delete volume => Delete volume
  | Service_Attach volume server => Attach volume server
  | Service_Detach volume => Detach volume
  end.

Definition backend : Backend := {| World := state; answer := dispatch |}.

(** No two stored volumes share a name. *)
Definition unique_names (s : state) : Prop := NoDup (map Volume.Name s).

(** The same backend with a second client: after each call of the service
    under study is answered, the next scheduled step of the other client
    runs ([Some v]: it deletes [v]; [None]: it does nothing). *)
Definition raced_state : Type := state * list (option Volume.t).

Definition interfere (step : option Volume.t) (s : state) : state :=
  match step with
  | Some v => snd (Delete v s)
  | None => s
  end.

Definition raced_dispatch (X : Type) (c : Service X) (w : raced_state)
  : X * raced_state :=
  let (x, s1) := dispatch X c (fst w) in
  match snd w with
  | [] => (x, (s1, []))
  | step :: schedule => (x, (interfere step s1, schedule))
  end.

Definition raced_backend : Backend :=
  {| World := raced_state; answer := raced_dispatch |}.

End sanityVolumeService.

(** The tail of [IdempotentService.Create] once the lookup has returned a
    volume: the three checks in the order the code makes them. *)
Definition checked (opts : CreateOpts.t) (existingVolume : Volume.t)
  : option Volume.t * option error :=
  if (Volume.Size existingVolume <? CreateOpts.MinSize opts)%Z then
    (None, Some ErrVolumeAlreadyExists)
  else if ((CreateOpts.MaxSize opts >? 0)%Z
           && (Volume.Size existingVolume >? CreateOpts.MaxSize opts)%Z)%bool then
    (None, Some ErrVolumeAlreadyExists)
  else if negb (String.eqb (Volume.Location existingVolume)
                           (CreateOpts.Location opts)) then
    (None, Some ErrVolumeAlreadyExists)
  else
    (Some existingVolume, None).

(** The three checks of the replay path in the spec's words: the existing
    volume is at least [MinSize], at most [MaxSize] when that is set, and in
    the requested location. *)
Definition CompatibleWith (opts : CreateOpts.t) (existing : Volume.t) : Prop :=
  (CreateOpts.MinSize opts <= Volume.Size existing)%Z
  /\ ((CreateOpts.MaxSize opts > 0)%Z ->
      (Volume.Size existing <= CreateOpts.MaxSize opts)%Z)
  /\ Volume.Location existing = CreateOpts.Location opts.

(** Go's nil error. *)
Definition success : option error := None.

(** What [IdempotentService.Delete] and [Detach] make of the backend's error:
    the tolerated kind counts as success, every other error is surfaced. *)
Definition tolerating (kind : error) (err : option error) : option error :=
  match err with
  | None => None
  | Some e => if error_eqb e kind then None else Some e
  end.

(** Options a volume can satisfy: the upper bound, when set, is not below the
    lower bound. *)
Definition satisfiable (opts : CreateOpts.t) : Prop :=
  (CreateOpts.MaxSize opts <= 0 \/ CreateOpts.MinSize opts <= CreateOpts.MaxSize opts)%Z.

(** Two calls of [IdempotentService.Create] with the same options, the second
    on the state the first one left. *)
Definition create_twice (B : Backend) (opts : CreateOpts.t) (w : World B)
  : outcome (option Volume.t * option error)
    * outcome (option Volume.t * option error) * World B :=
  let '(r1, w1, _) := exec B (IdempotentService.Create opts) w in
  let '(r2, w2, _) := exec B (IdempotentService.Create opts) w1 in
  (r1, r2, w2).

(** ** Process startup: [main] *)

(** Errors of the operating system and of the cloud client; [os.IsNotExist]
    only looks at the kind. *)
Record oserror : Type := { IsNotExist : bool; Msg : string }.

(** Modelled from the spec: [hcloud.Server] is declared in the client library;
    [main] follows the pointers [server.Datacenter.Location]. *)
Module hcloud.
Record Location_t : Type := { LocationName : string }.
Record Datacenter_t : Type := { Location : option Location_t }.
Record Server : Type := { ID : Z; Name : string; Datacenter : option Datacenter_t }.
End hcloud.

(** What [main] asks of its environment.  Constructors of the services and of
    the gRPC server, and the registration of the services, have no answer
    [main] looks at and are left out; [SetReady] is kept because it is the
    write to the readiness flag. *)
Inductive Sys : Type -> Type :=
| Getenv (key : string) : Sys string
| Remove (name : string) : Sys (option oserror)
| Atoi (s : string) : Sys (Z * option oserror)
| HttpGet (url : string) : Sys (option oserror)
| ReadAll : Sys (string * option oserror)
| BodyClose : Sys unit
| ServerGetByID (id : Z) : Sys (option hcloud.Server * option oserror)
| Listen (network address : string) : Sys (option oserror)
| SetReady (ready : bool) : Sys unit
| Serve : Sys (option oserror).

Inductive SysEvent : Type :=
| EvGetenv (key value : string)
| EvRemove (name : string) (r : option oserror)
| EvAtoi (s : string) (r : Z * option oserror)
| EvHttpGet (url : string) (r : option oserror)
| EvReadAll (r : string * option oserror)
| EvBodyClose
| EvServerGetByID (id : Z) (r : option hcloud.Server * option oserror)
| EvListen (network address : string) (r : option oserror)
| EvSetReady (ready : bool)
| EvServe (r : option oserror).

Definition sys_observe (X : Type) (c : Sys X) : X -> SysEvent :=
  match c in Sys X return X -> SysEvent with
  | Getenv key => EvGetenv key
  | Remove name => EvRemove name
  | Atoi s => EvAtoi s
  | HttpGet url => EvHttpGet url
  | ReadAll => EvReadAll
  | BodyClose => fun _ => EvBodyClose
  | ServerGetByID id => EvServerGetByID id
  | Listen network address => EvListen network address
  | SetReady ready => fun _ => EvSetReady ready
  | Serve => EvServe
  end.

Definition getInstanceID : Prog Sys (Z * option oserror) :=
  err <- HttpGet "http://169.254.169.254/2009-04-04/meta-data/instance-id" ;;
  match err with
  | Some err => Ret (0%Z, Some err)
  | None =>
      '(body, err) <- ReadAll ;;
      match err with
      | Some err => _ <- BodyClose ;; Ret (0%Z, Some err)
      | None => r <- Atoi body ;; _ <- BodyClose ;; Ret r
      end
  end.

Definition getServerID : Prog Sys Z :=
  s <- Getenv "HCLOUD_SERVER_ID" ;;
  if negb (String.eqb s "") then
    '(id, err) <- Atoi s ;;
    match err with
    | Some _ => Stop (Exited 1)
    | None => Ret id
    end
  else
    bind getInstanceID (fun '(id, err) =>
    match err with
    | Some _ => Stop (Exited 1)
    | None => Ret id
    end).

Definition main : Prog Sys unit :=
  endpoint <- Getenv "CSI_ENDPOINT" ;;
  if String.eqb endpoint "" then Stop (Exited 2) else
  if negb (String.prefix "unix://" endpoint) then Stop (Exited 2) else
  let endpoint := substring 7 (String.length endpoint - 7) endpoint in
  err <- Remove endpoint ;;
  if match err with Some err => negb (IsNotExist err) | None => false end
  then Stop (Exited 1) else
  apiToken <- Getenv "HCLOUD_TOKEN" ;;
  if String.eqb apiToken "" then Stop (Exited 2) else
  bind getServerID (fun hcloudServerID =>
  '(server, err) <- ServerGetByID hcloudServerID ;;
  match err with
  | Some _ => Stop (Exited 1)
  | None =>
  match server with
  | None => Stop Panicked                        (* server.Name *)
  | Some server =>
  match hcloud.Datacenter server with
  | None => Stop Panicked                        (* server.Datacenter.Location *)
  | Some datacenter =>
  match hcloud.Location datacenter with
  | None => Stop Panicked                        (* ....Location.Name *)
  | Some _ =>
  err <- Listen "unix" endpoint ;;
  match err with
  | Some _ => Stop (Exited 1)
  | None =>
  _ <- SetReady true ;;
  err <- Serve ;;
  match err with
  | Some _ => Stop (Exited 1)
  | None => Ret tt
  end end end end end end).

(** An environment of the process: a world and the answer to each request. *)
Record Environment : Type := {
  Sys_World : Type;
  sys_answer : forall X, Sys X -> Sys_World -> X * Sys_World
}.

Definition start (Env : Environment) (w : Sys_World Env)
  : outcome unit * Sys_World Env * list SysEvent :=
  run sys_observe (sys_answer Env) main w.

(** ** The gRPC interceptor [requestLogger] of main.go

    The interceptor logs, calls the handler it is given, logs again and
    returns.  Here the log lines are kept: they are all the interceptor adds
    to the handler.  Requests, responses and errors are the interface values
    of gRPC; a nil response or error is [None]. *)
Inductive level : Type := LevelDebug | LevelInfo | LevelError.

Section Interceptor.
Context {Req Resp Err : Type}.

(** The value logged beside the message, under the key req or err. *)
Inductive keyval : Type :=
| KeyReq (req : Req)
| KeyErr (err : Err).

Inductive Rpc : Type -> Type :=
| Log (lvl : level) (msg : string) (keyvals : list keyval) : Rpc unit
| Handler (req : Req) : Rpc (option Resp * option Err).

Inductive RpcEvent : Type :=
| EvLog (lvl : level) (msg : string) (keyvals : list keyval)
| EvHandler (req : Req) (r : option Resp * option Err).

Definition rpc_observe (X : Type) (c : Rpc X) : X -> RpcEvent :=
  match c in Rpc X return X -> RpcEvent with
  | Log lvl msg keyvals => fun _ => EvLog lvl msg keyvals
  | Handler req => EvHandler req
  end.

Definition requestLogger (req : Req) : Prog Rpc (option Resp * option Err) :=
  _ <- Log LevelDebug "handling request" [KeyReq req] ;;
  '(resp, err) <- Handler req ;;
  match err with
  | Some e =>
      _ <- Log LevelError "handler failed" [KeyErr e] ;;
      Ret (resp, err)
  | None =>
      _ <- Log LevelDebug "finished handling request" [] ;;
      Ret (resp, err)
  end.

Definition is_handler (ev : RpcEvent) : bool :=
  match ev with EvHandler _ _ => true | EvLog _ _ _ => false end.

Definition is_error_log (ev : RpcEvent) : bool :=
  match ev with EvLog LevelError _ _ => true | _ => false end.
End Interceptor.
Arguments keyval : clear implicits.
Arguments Rpc : clear implicits.
Arguments RpcEvent : clear implicits.

(** ** volumes/stats.go: LinuxStatsService

    The fields of [unix.Statfs_t] the code reads.  On Linux the counters are
    [uint64] and [Bsize] is a signed word; the code converts each to [int64]
    and computes in [int64], where a conversion and every operation wrap
    around modulo 2^64. *)
Module Statfs_t.
Record t : Type := {
  Bsize : Z;
  Blocks : Z;
  Bfree : Z;
  Bavail : Z;
  Files : Z;
  Ffree : Z
}.
End Statfs_t.

(** The value of an integer as an [int64]: its residue modulo 2^64 in
    [-2^63, 2^63). *)
Definition int64 (z : Z) : Z := ((z + 2 ^ 63) mod 2 ^ 64 - 2 ^ 63)%Z.

Definition sub64 (a b : Z) : Z := int64 (a - b).
Definition mul64 (a b : Z) : Z := int64 (a * b).

Definition is_int64 (z : Z) : Prop := (- 2 ^ 63 <= z < 2 ^ 63)%Z.
Definition is_uint64 (z : Z) : Prop := (0 <= z < 2 ^ 64)%Z.

(** What the kernel can hand back in a [Statfs_t]. *)
Definition well_typed (st : Statfs_t.t) : Prop :=
  is_int64 (Statfs_t.Bsize st)
  /\ is_uint64 (Statfs_t.Blocks st) /\ is_uint64 (Statfs_t.Bfree st)
  /\ is_uint64 (Statfs_t.Bavail st)
  /\ is_uint64 (Statfs_t.Files st) /\ is_uint64 (Statfs_t.Ffree st).

(** [unix.Statfs(path, &statfs)]: the filled structure and the error. *)
Inductive Unix : Type -> Type :=
| Statfs (path : string) : Unix (Statfs_t.t * option oserror).

Inductive UnixEvent : Type :=
| EvStatfs (path : string) (r : Statfs_t.t * option oserror).

Definition unix_observe (X : Type) (c : Unix X) : X -> UnixEvent :=
  match c in Unix X return X -> UnixEvent with
  | Statfs path => EvStatfs path
  end.

Module LinuxStatsService.

(** Returns [(availableBytes, usedBytes, err)]; the named results are zero
    when the function returns early. *)
Definition ByteFilesystemStats (volumePath : string)
  : Prog Unix (Z * Z * option oserror) :=
  '(statfs, err) <- Statfs volumePath ;;
  match err with
  | Some err => Ret (0%Z, 0%Z, Some err)
  | None =>
      let availableBytes :=
        mul64 (int64 (Statfs_t.Bavail statfs)) (int64 (Statfs_t.Bsize statfs)) in
      let usedBytes :=
        mul64 (sub64 (int64 (Statfs_t.Blocks statfs)) (int64 (Statfs_t.Bfree statfs)))
              (int64 (Statfs_t.Bsize statfs)) in
      Ret (availableBytes, usedBytes, None)
  end.

(** Returns [(total, used, free, err)]. *)
Definition INodeFilesystemStats (volumePath : string)
  : Prog Unix (Z * Z * Z * option oserror) :=
  '(statfs, err) <- Statfs volumePath ;;
  match err with
  | Some err => Ret (0%Z, 0%Z, 0%Z, Some err)
  | None =>
      let total := int64 (Statfs_t.Files statfs) in
      let free := int64 (Statfs_t.Ffree statfs) in
      let used := sub64 total free in
      Ret (total, used, free, None)
  end.

End LinuxStatsService.

(** A filesystem: it answers every [Statfs] from a world of its own. *)
Record Filesystem : Type := {
  FS_World : Type;
  fs_answer : forall X, Unix X -> FS_World -> X * FS_World
}.

Definition stat (F : Filesystem) {R} (p : Prog Unix R) (w : FS_World F)
  : outcome R * FS_World F * list UnixEvent :=
  run unix_observe (fs_answer F) p w.

(** ** Reading the traces of [main] *)

(** The trace ends with [x]. *)
Definition ends_with {Ev : Type} (tr : list Ev) (x : Ev) : Prop :=
  exists pre, tr = pre ++ [x].

Definition is_close (ev : SysEvent) : bool :=
  match ev with EvBodyClose => true | _ => false end.

Definition is_http (ev : SysEvent) : bool :=
  match ev with EvHttpGet _ _ | EvReadAll _ | EvBodyClose => true | _ => false end.

(** The address of the instance metadata service [getInstanceID] asks. *)
Definition metadata_url : string :=
  "http://169.254.169.254/2009-04-04/meta-data/instance-id".

(** The requests that leave the machine for the cloud API or the metadata
    service. *)
Definition is_remote (ev : SysEvent) : bool :=
  match ev with
  | EvServerGetByID _ _ | EvHttpGet _ _ => true
  | _ => false
  end.

(** [getServerID] and [getInstanceID] run on their own. *)
Definition run_getServerID (Env : Environment) (w : Sys_World Env)
  : outcome Z * Sys_World Env * list SysEvent :=
  run sys_observe (sys_answer Env) getServerID w.

Definition run_getInstanceID (Env : Environment) (w : Sys_World Env)
  : outcome (Z * option oserror) * Sys_World Env * list SysEvent :=
  run sys_observe (sys_answer Env) getInstanceID w.

(** The server has the datacenter and location [main] dereferences. *)
Definition located (server : option hcloud.Server) : bool :=
  match server with
  | Some server =>
      match hcloud.Datacenter server with
      | Some datacenter =>
          match hcloud.Location datacenter with
          | Some _ => true
          | None => false
          end
      | None => false
      end
  | None => false
  end.

(** The backend answers a volume or an error, never neither. *)
Definition answers_something (r : option Volume.t * option error) : bool :=
  match r with
  | (None, None) => false
  | _ => true
  end.

Definition is_already_exists (err : option error) : bool :=
  match err with
  | Some e => error_eqb e ErrVolumeAlreadyExists
  | None => false
  end.

(** No two stored volumes share an ID. *)
Definition unique_ids (s : sanityVolumeService.state) : Prop :=
  NoDup (map Volume.ID s).

(** What the pre-read of [Attach] shows, in the spec's words: the volume is
    attached to the requested server, or to a different one. *)
Definition AttachedToRequested (vol : Volume.t) (server : Server.t) : Prop :=
  exists s, Volume.Server vol = Some s /\ Server.ID s = Server.ID server.

Definition AttachedToDifferent (vol : Volume.t) (server : Server.t) : Prop :=
  exists s, Volume.Server vol = Some s /\ Server.ID s <> Server.ID server.

(** The volume the in-memory backend finds under the requested name, if
    there is one, is compatible with the options. *)
Definition holder_compatible (opts : CreateOpts.t)
           (s : sanityVolumeService.state) : Prop :=
  forall existing,
    find (sanityVolumeService.by_name (CreateOpts.Name opts)) s = Some existing ->
    CompatibleWith opts existing.

(** ** IdempotentService.Attach with its pointer arguments

    [Attach] takes [*csi.Volume] and [*csi.Server] and dereferences them
    itself: [volume.ID] before the pre-read (line 314), and [server.ID] in the
    test of line 319 when the pre-read shows an attachment.  With both
    pointers non-nil this is [IdempotentService.Attach] above.  With a nil
    server and an unattached volume no dereference happens, and the nil
    pointer is handed to the backend's attach: one more call. *)
Inductive ServiceP : Type -> Type :=
| Plain {X : Type} (c : Service X) : ServiceP X
| Service_Attach_nil (volume : Volume.t) : ServiceP (option error).

Inductive PointerEvent : Type :=
| EvPlain (ev : BackendEvent)
| EvAttachNil (volume : Volume.t) (r : option error).

Definition observeP (X : Type) (c : ServiceP X) : X -> PointerEvent :=
  match c in ServiceP X return X -> PointerEvent with
  | Plain c => fun x => EvPlain (observe _ c x)
  | Service_Attach_nil volume => EvAttachNil volume
  end.

(** A program over the backend calls, as a program over the larger
    signature. *)
Fixpoint lift {R : Type} (p : Prog Service R) : Prog ServiceP R :=
  match p with
  | Ret r => Ret r
  | Stop h => Stop h
  | Vis e k => Vis (Plain e) (fun x => lift (k x))
  end.

Definition AttachP (volume : option Volume.t) (server : option Server.t)
  : Prog ServiceP (option error) :=
  match volume, server with
  | None, _ => Stop Panicked                       (* volume.ID, line 314 *)
  | Some volume, Some server =>
      lift (IdempotentService.Attach volume server)
  | Some volume, None =>
      '(vol, err) <- Plain (Service_GetByID (Volume.ID volume)) ;;
      match err with
      | Some err => Ret (Some err)
      | None =>
          match vol with
          | None => Stop Panicked                  (* vol.Server on a nil vol *)
          | Some vol =>
              match Volume.Server vol with
              | Some _ => Stop Panicked            (* server.ID, line 319 *)
              | None =>
                  attachErr <- Service_Attach_nil volume ;;
                  match attachErr with
                  | None => Ret None
                  | Some attachErr => Ret (Some attachErr)
                  end
              end
          end
      end
  end.

(** A backend that also answers an attach to a nil server. *)
Record BackendP : Type := {
  WorldP : Type;
  answerP : forall X, ServiceP X -> WorldP -> X * WorldP
}.

Definition execP (B : BackendP) {R} (p : Prog ServiceP R) (w : WorldP B)
  : outcome R * WorldP B * list PointerEvent :=
  run observeP (answerP B) p w.

(** The backend calls of a pointer backend, as a backend. *)
Definition plain_backend (B : BackendP) : Backend :=
  {| World := WorldP B; answer := fun X (c : Service X) => answerP B X (Plain c) |}.

(** ** Concrete data for the examples *)
Module Examples.

Definition volume (id : N) (name : string) (size : Z) (location : string)
           (server : option Server.t) : Volume.t :=
  {| Volume.ID := id; Volume.Name := name; Volume.Size := size;
     Volume.Location := location; Volume.Server := server |}.

Definition opts (name : string) (min max : Z) (location : string) : CreateOpts.t :=
  {| CreateOpts.Name := name; CreateOpts.MinSize := min;
     CreateOpts.MaxSize := max; CreateOpts.Location := location |}.

Definition server1 : Server.t := {| Server.ID := 1 |}.
Definition server2 : Server.t := {| Server.ID := 2 |}.

(** A volume named X of size 5, and one of size 10, both in fsn1. *)
Definition X5 : Volume.t := volume 1 "X" 5 "fsn1" None.
Definition X10 : Volume.t := volume 1 "X" 10 "fsn1" None.
(** X10 attached to server 1. *)
Definition X10_on_1 : Volume.t := volume 1 "X" 10 "fsn1" (Some server1).

(** A request for X of at least 10 in fsn1, unbounded. *)
Definition X_min10 : CreateOpts.t := opts "X" 10 0 "fsn1".
(** A request whose upper bound 5 is below its lower bound 10. *)
Definition Y_min10_max5 : CreateOpts.t := opts "Y" 10 5 "fsn1".

(** A backend that holds one volume, attached or not, and refuses every
    attach and detach with an error of its own. *)
Definition refusing (held : Volume.t) : Backend :=
  {| World := unit;
     answer := fun X (c : Service X) (w : unit) =>
       (match c in Service X return X with
        | Service_Create _ => (None, Some ErrVolumeAlreadyExists)
        | Service_GetByID _ => (Some held, None)
        | Service_GetByName _ => (Some held, None)
        | Service_Delete _ => Some (ErrOpaque "locked")
        | Service_Attach _ _ => Some ErrAttachLimitReached
        | Service_Detach _ => Some (ErrOpaque "locked")
        end, w) |}.

(** A backend that is unreachable: every call fails. *)
Definition unreachable : Backend :=
  {| World := unit;
     answer := fun X (c : Service X) (w : unit) =>
       (match c in Service X return X with
        | Service_Create _ => (None, Some (ErrOpaque "timeout"))
        | Service_GetByID _ => (None, Some (ErrOpaque "timeout"))
        | Service_GetByName _ => (None, Some (ErrOpaque "timeout"))
        | Service_Delete _ => Some (ErrOpaque "timeout")
        | Service_Attach _ _ => Some (ErrOpaque "timeout")
        | Service_Detach _ => Some (ErrOpaque "timeout")
        end, w) |}.

(** A server as the cloud API returns it, with its datacenter and location. *)
Definition node : hcloud.Server :=
  {| hcloud.ID := 42; hcloud.Name := "node-1";
     hcloud.Datacenter :=
       Some {| hcloud.Location := Some {| hcloud.LocationName := "fsn1" |} |} |}.

Definition EPERM : oserror := {| IsNotExist := false; Msg := "operation not permitted" |}.
Definition ENOENT : oserror := {| IsNotExist := true; Msg := "no such file or directory" |}.

(** An environment given by the endpoint, the answer to the removal of the
    socket file and the answer to the server lookup; the token is set, the
    server ID is 42, and everything else succeeds. *)
Definition environment (endpoint : string) (removed : option oserror)
           (fetched : option hcloud.Server * option oserror) : Environment :=
  {| Sys_World := unit;
     sys_answer := fun X (c : Sys X) (w : unit) =>
       (match c in Sys X return X with
        | Getenv key =>
            if String.eqb key "CSI_ENDPOINT" then endpoint
            else if String.eqb key "HCLOUD_TOKEN" then "token"
            else "42"
        | Remove _ => removed
        | Atoi _ => (42%Z, None)
        | HttpGet _ => None
        | ReadAll => ("42", None)
        | BodyClose => tt
        | ServerGetByID _ => fetched
        | Listen _ _ => None
        | SetReady _ => tt
        | Serve => None
        end, w) |}.

(** A filesystem that answers every [Statfs] the same way. *)
Definition filesystem (st : Statfs_t.t) (err : option oserror) : Filesystem :=
  {| FS_World := unit;
     fs_answer := fun X (c : Unix X) (w : unit) =>
       (match c in Unix X return X with
        | Statfs _ => (st, err)
        end, w) |}.

(** A 10 GiB volume with 4 KiB blocks: 2621440 blocks, 2000000 free of which
    1900000 for unprivileged users; 655360 inodes, 655000 free. *)
Definition disk : Statfs_t.t :=
  {| Statfs_t.Bsize := 4096; Statfs_t.Blocks := 2621440;
     Statfs_t.Bfree := 2000000; Statfs_t.Bavail := 1900000;
     Statfs_t.Files := 655360; Statfs_t.Ffree := 655000 |}.

Definition empty_statfs : Statfs_t.t :=
  {| Statfs_t.Bsize := 0; Statfs_t.Blocks := 0; Statfs_t.Bfree := 0;
     Statfs_t.Bavail := 0; Statfs_t.Files := 0; Statfs_t.Ffree := 0 |}.

End Examples.

(** * Properties *)

(** ** Errors *)

Lemma error_eqb_eq (a b : error) : error_eqb a b = true <-> a = b.
Proof.
  destruct a, b; simpl; split; intros H;
    try reflexivity; try discriminate.
  - apply String.eqb_eq in H. congruence.
  - injection H as ->. apply String.eqb_refl.
Qed.

Lemma tolerating_success (kind : error) (err : option error) :
  tolerating kind err = success <-> err = None \/ err = Some kind.
Proof.
  unfold tolerating, success. destruct err as [e |].
  - destruct (error_eqb e kind) eqn:He.
    + apply error_eqb_eq in He; subst. split; auto.
    + split; [discriminate | ].
      intros [H | H]; [discriminate | ].
      injection H as ->.
      assert (error_eqb kind kind = true) by (apply error_eqb_eq; reflexivity).
      congruence.
  - split; auto.
Qed.

Lemma tolerating_failure (kind : error) (err : option error) (e : error) :
  tolerating kind err = Some e -> err = Some e /\ e <> kind.
Proof.
  unfold tolerating. destruct err as [e' |]; [ | discriminate].
  destruct (error_eqb e' kind) eqn:He; [discriminate | ].
  intros H; injection H as ->. split; [reflexivity | ].
  intros ->.
  assert (error_eqb kind kind = true) by (apply error_eqb_eq; reflexivity).
  congruence.
Qed.

(** ** IdempotentService.Create *)

Lemma compatible_checks (opts : CreateOpts.t) (existing : Volume.t) :
  CompatibleWith opts existing <->
  (Volume.Size existing <? CreateOpts.MinSize opts)%Z = false
  /\ ((CreateOpts.MaxSize opts >? 0)%Z
      && (Volume.Size existing >? CreateOpts.MaxSize opts)%Z)%bool = false
  /\ negb (String.eqb (Volume.Location existing) (CreateOpts.Location opts)) = false.
Proof.
  unfold CompatibleWith.
  rewrite Z.ltb_ge, andb_false_iff, negb_false_iff, String.eqb_eq.
  rewrite !Z.gtb_ltb, !Z.ltb_ge. intuition lia.
Qed.

(** The replay path of [Create] on any backend: what is asked, and what comes
    back for each answer of the lookup. *)
Lemma Create_replay (B : Backend) (w : World B) (opts : CreateOpts.t)
      (created : option Volume.t) (w1 : World B)
      (Hcreate : answer B _ (Service_Create opts) w
                 = ((created, Some ErrVolumeAlreadyExists), w1)) :
  let (found, w2) := answer B _ (Service_GetByName (CreateOpts.Name opts)) w1 in
  exec B (IdempotentService.Create opts) w =
  (Returned
     match found with
     | (_, Some err) => (None, Some err)
     | (None, None) => (None, Some ErrVolumeAlreadyExists)
     | (Some existing, None) => checked opts existing
     end,
   w2,
   [EvCreate opts (created, Some ErrVolumeAlreadyExists);
    EvGetByName (CreateOpts.Name opts) found]).
Proof.
  destruct (answer B _ (Service_GetByName (CreateOpts.Name opts)) w1)
    as [found w2] eqn:Hget.
  unfold exec, IdempotentService.Create; simpl.
  rewrite Hcreate; simpl. rewrite Hget.
  destruct found as [[existing |] [err |]]; simpl; try reflexivity.
  unfold checked.
  destruct (Volume.Size existing <? CreateOpts.MinSize opts)%Z; [reflexivity | ].
  destruct ((CreateOpts.MaxSize opts >? 0)%Z
            && (Volume.Size existing >? CreateOpts.MaxSize opts)%Z)%bool; [reflexivity | ].
  destruct (negb (String.eqb (Volume.Location existing) (CreateOpts.Location opts)));
    reflexivity.
Qed.

(** The checks pass exactly on a compatible volume, and a failed check is
    VolumeAlreadyExists; a volume that passes is returned as it is. *)
Lemma checked_compatible (opts : CreateOpts.t) (existing : Volume.t) :
  (checked opts existing = (Some existing, success) <-> CompatibleWith opts existing)
  /\ (~ CompatibleWith opts existing ->
      checked opts existing = (None, Some ErrVolumeAlreadyExists)).
Proof.
  rewrite compatible_checks. unfold checked.
  destruct (Volume.Size existing <? CreateOpts.MinSize opts)%Z;
    [ split; [split; [discriminate | intros [? _]; discriminate] | reflexivity] | ].
  destruct ((CreateOpts.MaxSize opts >? 0)%Z
            && (Volume.Size existing >? CreateOpts.MaxSize opts)%Z)%bool;
    [ split; [split; [discriminate | intros [_ [? _]]; discriminate] | reflexivity] | ].
  destruct (negb (String.eqb (Volume.Location existing) (CreateOpts.Location opts)));
    [ split; [split; [discriminate | intros [_ [_ ?]]; discriminate] | reflexivity] | ].
  split; [split; auto | ].
  intros Hn; exfalso; apply Hn; auto.
Qed.

Lemma checked_returns (opts : CreateOpts.t) (existing v : Volume.t) :
  fst (checked opts existing) = Some v ->
  v = existing /\ snd (checked opts existing) = success.
Proof.
  unfold checked.
  destruct (Volume.Size existing <? CreateOpts.MinSize opts)%Z; [discriminate | ].
  destruct ((CreateOpts.MaxSize opts >? 0)%Z
            && (Volume.Size existing >? CreateOpts.MaxSize opts)%Z)%bool; [discriminate | ].
  destruct (negb (String.eqb (Volume.Location existing) (CreateOpts.Location opts)));
    [discriminate | ].
  simpl. intros H; injection H as ->. split; reflexivity.
Qed.

(** C1.  When the backend create reports VolumeAlreadyExists and the lookup by
    name returns the existing volume, [Create] asks the backend exactly these
    two things and returns the existing volume as success if and only if it
    is compatible with the options (size at least MinSize, at most MaxSize
    when MaxSize > 0, same location); when a check fails it fails with
    VolumeAlreadyExists. *)
Theorem Create_validates_existing_volume
        (B : Backend) (w : World B) (opts : CreateOpts.t)
        (created : option Volume.t) (w1 : World B)
        (existing : Volume.t) (w2 : World B)
        (Hcreate : answer B _ (Service_Create opts) w
                   = ((created, Some ErrVolumeAlreadyExists), w1))
        (Hget : answer B _ (Service_GetByName (CreateOpts.Name opts)) w1
                = ((Some existing, None), w2)) :
  exists r,
    exec B (IdempotentService.Create opts) w
    = (Returned r, w2,
       [EvCreate opts (created, Some ErrVolumeAlreadyExists);
        EvGetByName (CreateOpts.Name opts) (Some existing, None)])
    /\ (r = (Some existing, success) <-> CompatibleWith opts existing)
    /\ (~ CompatibleWith opts existing -> r = (None, Some ErrVolumeAlreadyExists)).
Proof.
  pose proof (Create_replay B w opts created w1 Hcreate) as H.
  rewrite Hget in H.
  exists (checked opts existing). split; [exact H | ].
  apply checked_compatible.
Qed.

(** The in-memory backend holds X of size 10; a request for X of at least 10
    gets it back. *)
Lemma Create_validates_existing_volume_witness :
  exists r,
    exec sanityVolumeService.backend
         (IdempotentService.Create Examples.X_min10) [Examples.X10]
    = (Returned r, [Examples.X10],
       [EvCreate Examples.X_min10 (None, Some ErrVolumeAlreadyExists);
        EvGetByName "X" (Some Examples.X10, None)])
    /\ (r = (Some Examples.X10, success)
        <-> CompatibleWith Examples.X_min10 Examples.X10)
    /\ (~ CompatibleWith Examples.X_min10 Examples.X10
        -> r = (None, Some ErrVolumeAlreadyExists)).
Proof.
  exact (Create_validates_existing_volume
           sanityVolumeService.backend [Examples.X10] Examples.X_min10
           None [Examples.X10] Examples.X10 [Examples.X10] eq_refl eq_refl).
Defined.

(** The conflict of the spec: X exists with size 5, at least 10 is requested. *)
Example Create_conflict_undersized :
  exec sanityVolumeService.backend
       (IdempotentService.Create Examples.X_min10) [Examples.X5]
  = (Returned (None, Some ErrVolumeAlreadyExists), [Examples.X5],
     [EvCreate Examples.X_min10 (None, Some ErrVolumeAlreadyExists);
      EvGetByName "X" (Some Examples.X5, None)]).
Proof. reflexivity. Qed.

(** Any other error of the backend create is returned at once, with no
    lookup. *)
Example Create_other_error_propagated :
  exec Examples.unreachable (IdempotentService.Create Examples.X_min10) tt
  = (Returned (None, Some (ErrOpaque "timeout")), tt,
     [EvCreate Examples.X_min10 (None, Some (ErrOpaque "timeout"))]).
Proof. reflexivity. Qed.

(** C10.  Once the backend create has failed with VolumeAlreadyExists, the
    rest of [Create] is a single GetByName: every later call is a read, the
    trace holds one create only, [Create] returns, and a volume it returns is
    the one the lookup reported, unchanged. *)
Theorem Create_replay_only_reads
        (B : Backend) (w : World B) (opts : CreateOpts.t)
        (created : option Volume.t) (w1 : World B)
        (Hcreate : answer B _ (Service_Create opts) w
                   = ((created, Some ErrVolumeAlreadyExists), w1)) :
  exists found w2 r,
    answer B _ (Service_GetByName (CreateOpts.Name opts)) w1 = (found, w2)
    /\ exec B (IdempotentService.Create opts) w
       = (Returned r, w2,
          [EvCreate opts (created, Some ErrVolumeAlreadyExists);
           EvGetByName (CreateOpts.Name opts) found])
    /\ Forall (fun ev => is_read ev = true)
              (tl (snd (exec B (IdempotentService.Create opts) w)))
    /\ List.length (filter is_create (snd (exec B (IdempotentService.Create opts) w)))
       = 1%nat
    /\ (forall v, fst r = Some v -> found = (Some v, None) /\ snd r = success).
Proof.
  pose proof (Create_replay B w opts created w1 Hcreate) as H.
  destruct (answer B _ (Service_GetByName (CreateOpts.Name opts)) w1)
    as [found w2] eqn:Hget.
  exists found, w2. eexists. split; [reflexivity | ].
  split; [exact H | ]. rewrite H; simpl.
  split; [repeat constructor | ]. split; [reflexivity | ].
  intros v. destruct found as [[existing |] [err |]]; simpl; try discriminate.
  intros Hv. apply checked_returns in Hv as [-> Hs]. split; [reflexivity | exact Hs].
Qed.

Lemma Create_replay_only_reads_witness :
  exists found w2 r,
    sanityVolumeService.dispatch _ (Service_GetByName "X") [Examples.X10] = (found, w2)
    /\ exec sanityVolumeService.backend
            (IdempotentService.Create Examples.X_min10) [Examples.X10]
       = (Returned r, w2,
          [EvCreate Examples.X_min10 (None, Some ErrVolumeAlreadyExists);
           EvGetByName "X" found])
    /\ Forall (fun ev => is_read ev = true)
              (tl (snd (exec sanityVolumeService.backend
                             (IdempotentService.Create Examples.X_min10)
                             [Examples.X10])))
    /\ List.length (filter is_create
                            (snd (exec sanityVolumeService.backend
                                       (IdempotentService.Create Examples.X_min10)
                                       [Examples.X10])))
       = 1%nat
    /\ (forall v, fst r = Some v -> found = (Some v, None) /\ snd r = success).
Proof.
  exact (Create_replay_only_reads
           sanityVolumeService.backend [Examples.X10] Examples.X_min10
           None [Examples.X10] eq_refl).
Defined.

(** What [Create] does with a lookup that comes back empty-handed: an error
    of the lookup is returned as it is; only a lookup that reports neither a
    volume nor an error is turned into VolumeAlreadyExists. *)
Lemma Create_lookup_without_volume
      (B : Backend) (w : World B) (opts : CreateOpts.t)
      (created : option Volume.t) (w1 : World B)
      (err : option error) (w2 : World B)
      (Hcreate : answer B _ (Service_Create opts) w
                 = ((created, Some ErrVolumeAlreadyExists), w1))
      (Hget : answer B _ (Service_GetByName (CreateOpts.Name opts)) w1
              = ((None, err), w2)) :
  exec B (IdempotentService.Create opts) w
  = (Returned (None, Some match err with
                          | Some e => e
                          | None => ErrVolumeAlreadyExists
                          end),
     w2,
     [EvCreate opts (created, Some ErrVolumeAlreadyExists);
      EvGetByName (CreateOpts.Name opts) (None, err)]).
Proof.
  pose proof (Create_replay B w opts created w1 Hcreate) as H.
  rewrite Hget in H. rewrite H. destruct err; reflexivity.
Qed.

(** C5.  The in-memory backend holds X; [Create] for X is answered
    VolumeAlreadyExists; a second client deletes X before the lookup; the
    lookup reports VolumeNotFound, and [Create] returns VolumeNotFound, not
    VolumeAlreadyExists.  Nothing is created and nothing is returned as
    success. *)
Theorem Create_vanished_volume_reports_not_found :
  exec sanityVolumeService.raced_backend
       (IdempotentService.Create Examples.X_min10)
       ([Examples.X10], [Some Examples.X10])
  = (Returned (None, Some ErrVolumeNotFound), ([], []),
     [EvCreate Examples.X_min10 (None, Some ErrVolumeAlreadyExists);
      EvGetByName "X" (None, Some ErrVolumeNotFound)]).
Proof. reflexivity. Qed.

(** ** IdempotentService.Attach *)

Lemma attached_here_spec (vol : Volume.t) (server : Server.t) :
  IdempotentService.attached_here vol server = true
  <-> AttachedToRequested vol server.
Proof.
  unfold IdempotentService.attached_here, AttachedToRequested.
  destruct (Volume.Server vol) as [s |].
  - rewrite N.eqb_eq. split.
    + intros H. exists s. split; [reflexivity | exact H].
    + intros [s' [Hs H]]. injection Hs as <-. exact H.
  - split; [discriminate | intros [s' [Hs _]]; discriminate].
Qed.

Lemma attached_elsewhere_spec (vol : Volume.t) (server : Server.t) :
  IdempotentService.attached_elsewhere vol server = true
  <-> AttachedToDifferent vol server.
Proof.
  unfold IdempotentService.attached_elsewhere, AttachedToDifferent.
  destruct (Volume.Server vol) as [s |].
  - rewrite negb_true_iff, N.eqb_neq. split.
    + intros H. exists s. split; [reflexivity | exact H].
    + intros [s' [Hs H]]. injection Hs as <-. exact H.
  - split; [discriminate | intros [s' [Hs _]]; discriminate].
Qed.

(** C2.  When the pre-read returns the volume's remote state, [Attach] issues
    a detach exactly when that state shows the volume attached to a
    different server, goes on whatever the detach answers, then issues the
    backend attach; it returns success when the attach succeeds, and when
    the attach fails it returns success exactly when the pre-read showed the
    volume attached to the requested server, and the attach error
    otherwise. *)
Theorem Attach_reads_detaches_attaches
        (B : Backend) (w : World B) (volume : Volume.t) (server : Server.t)
        (vol : Volume.t) (w1 : World B)
        (Hread : answer B _ (Service_GetByID (Volume.ID volume)) w
                 = ((Some vol, None), w1)) :
  exists detached w2 attachErr w3 r,
    (AttachedToDifferent vol server ->
     exists detachErr,
       answer B _ (Service_Detach volume) w1 = (detachErr, w2)
       /\ detached = [EvDetach volume detachErr])
    /\ (~ AttachedToDifferent vol server -> w2 = w1 /\ detached = [])
    /\ answer B _ (Service_Attach volume server) w2 = (attachErr, w3)
    /\ exec B (IdempotentService.Attach volume server) w
       = (Returned r, w3,
          EvGetByID (Volume.ID volume) (Some vol, None)
            :: detached ++ [EvAttach volume server attachErr])
    /\ (attachErr = None -> r = success)
    /\ (forall e, attachErr = Some e ->
                  (r = success <-> AttachedToRequested vol server)
                  /\ (~ AttachedToRequested vol server -> r = Some e)).
Proof.
  assert (Hresult : forall attachErr : option error,
             let r := match attachErr with
                      | None => success
                      | Some e =>
                          if IdempotentService.attached_here vol server
                          then success else Some e
                      end in
             (attachErr = None -> r = success)
             /\ (forall e, attachErr = Some e ->
                           (r = success <-> AttachedToRequested vol server)
                           /\ (~ AttachedToRequested vol server -> r = Some e))).
  { intros [e0 |]; simpl.
    - split; [discriminate | ]. intros e He; injection He as <-.
      pose proof (attached_here_spec vol server) as Hspec.
      destruct (IdempotentService.attached_here vol server).
      + split; [split; [intros _; apply Hspec; reflexivity | reflexivity] | ].
        intros Hn; exfalso; apply Hn, Hspec; reflexivity.
      + split; [split; [discriminate | ] | reflexivity].
        intros Ha; apply Hspec in Ha; discriminate.
    - split; [reflexivity | discriminate]. }
  pose proof (attached_elsewhere_spec vol server) as Hother.
  unfold exec, IdempotentService.Attach; simpl. rewrite Hread; simpl.
  destruct (IdempotentService.attached_elsewhere vol server); simpl.
  - destruct (answer B _ (Service_Detach volume) w1) as [detachErr w2] eqn:Hdetach.
    destruct (answer B _ (Service_Attach volume server) w2) as [attachErr w3] eqn:Hattach.
    exists [EvDetach volume detachErr], w2, attachErr, w3. eexists.
    split; [intros _; exists detachErr; split; reflexivity | ].
    split; [intros Hn; exfalso; apply Hn, Hother; reflexivity | ].
    split; [exact Hattach | ].
    split; [ | exact (Hresult attachErr)].
    destruct attachErr as [e |]; simpl; [ | reflexivity].
    destruct (IdempotentService.attached_here vol server); reflexivity.
  - destruct (answer B _ (Service_Attach volume server) w1) as [attachErr w3] eqn:Hattach.
    exists [], w1, attachErr, w3. eexists.
    split; [intros Ho; apply Hother in Ho; discriminate | ].
    split; [intros _; split; reflexivity | ].
    split; [exact Hattach | ].
    split; [ | exact (Hresult attachErr)].
    destruct attachErr as [e |]; simpl; [ | reflexivity].
    destruct (IdempotentService.attached_here vol server); reflexivity.
Qed.

(** X is attached to server 1 and the backend refuses every detach and
    attach.  Attaching it to server 2 detaches first, goes on after the
    refused detach, and ends with the attach error; attaching it to server 1
    again issues no detach and is a success although the attach failed. *)
Lemma Attach_reads_detaches_attaches_witness :
  exec (Examples.refusing Examples.X10_on_1)
       (IdempotentService.Attach Examples.X10 Examples.server2) tt
  = (Returned (Some ErrAttachLimitReached), tt,
     [EvGetByID 1 (Some Examples.X10_on_1, None);
      EvDetach Examples.X10 (Some (ErrOpaque "locked"));
      EvAttach Examples.X10 Examples.server2 (Some ErrAttachLimitReached)])
  /\ exec (Examples.refusing Examples.X10_on_1)
          (IdempotentService.Attach Examples.X10 Examples.server1) tt
     = (Returned success, tt,
        [EvGetByID 1 (Some Examples.X10_on_1, None);
         EvAttach Examples.X10 Examples.server1 (Some ErrAttachLimitReached)]).
Proof.
  split.
  - destruct (Attach_reads_detaches_attaches
                (Examples.refusing Examples.X10_on_1) tt
                Examples.X10 Examples.server2 Examples.X10_on_1 tt eq_refl)
      as [detached [w2 [attachErr [w3 [r [Hdet [_ [Hattach [Hexec [_ Hfail]]]]]]]]]].
    assert (Hother : AttachedToDifferent Examples.X10_on_1 Examples.server2)
      by (exists Examples.server1; split; [reflexivity | discriminate]).
    destruct (Hdet Hother) as [detachErr [Hd ->]].
    simpl in Hd. injection Hd as <- <-.
    simpl in Hattach. injection Hattach as <- <-.
    destruct (Hfail _ eq_refl) as [_ Hr].
    rewrite Hr in Hexec; [exact Hexec | ].
    intros [s [Hs Hid]]. injection Hs as <-. discriminate Hid.
  - destruct (Attach_reads_detaches_attaches
                (Examples.refusing Examples.X10_on_1) tt
                Examples.X10 Examples.server1 Examples.X10_on_1 tt eq_refl)
      as [detached [w2 [attachErr [w3 [r [_ [Hnodet [Hattach [Hexec [_ Hfail]]]]]]]]]].
    assert (Hsame : AttachedToRequested Examples.X10_on_1 Examples.server1)
      by (exists Examples.server1; split; reflexivity).
    destruct Hnodet as [-> ->].
    { intros [s [Hs Hid]]. injection Hs as <-. apply Hid. reflexivity. }
    simpl in Hattach. injection Hattach as <- <-.
    destruct (Hfail _ eq_refl) as [Hr _].
    rewrite (proj2 Hr Hsame) in Hexec. exact Hexec.
Defined.

(** The replay: X is already on server 1 and the backend refuses the attach;
    attaching to server 1 again is a success, with no detach. *)
Example Attach_replay_same_server :
  exec (Examples.refusing Examples.X10_on_1)
       (IdempotentService.Attach Examples.X10 Examples.server1) tt
  = (Returned success, tt,
     [EvGetByID 1 (Some Examples.X10_on_1, None);
      EvAttach Examples.X10 Examples.server1 (Some ErrAttachLimitReached)]).
Proof. reflexivity. Qed.

(** C9.  When the pre-read fails, [Attach] returns that error at once: the
    pre-read is the only call the backend sees, so no detach and no attach is
    issued and the backend is left as the read left it. *)
Theorem Attach_preread_failure_stops
        (B : Backend) (w : World B) (volume : Volume.t) (server : Server.t)
        (vol : option Volume.t) (err : error) (w1 : World B)
        (Hread : answer B _ (Service_GetByID (Volume.ID volume)) w
                 = ((vol, Some err), w1)) :
  exec B (IdempotentService.Attach volume server) w
  = (Returned (Some err), w1, [EvGetByID (Volume.ID volume) (vol, Some err)])
  /\ Forall (fun ev => is_read ev = true)
            (snd (exec B (IdempotentService.Attach volume server) w)).
Proof.
  assert (H : exec B (IdempotentService.Attach volume server) w
              = (Returned (Some err), w1,
                 [EvGetByID (Volume.ID volume) (vol, Some err)])).
  { unfold exec, IdempotentService.Attach; simpl. rewrite Hread. reflexivity. }
  split; [exact H | ]. rewrite H; simpl. repeat constructor.
Qed.

(** Attaching a volume the in-memory backend does not hold. *)
Lemma Attach_preread_failure_stops_witness :
  exec sanityVolumeService.backend
       (IdempotentService.Attach Examples.X10 Examples.server1) []
  = (Returned (Some ErrVolumeNotFound), [],
     [EvGetByID 1 (None, Some ErrVolumeNotFound)])
  /\ Forall (fun ev => is_read ev = true)
            (snd (exec sanityVolumeService.backend
                       (IdempotentService.Attach Examples.X10 Examples.server1) [])).
Proof.
  exact (Attach_preread_failure_stops
           sanityVolumeService.backend [] Examples.X10 Examples.server1
           None ErrVolumeNotFound [] eq_refl).
Defined.

(** ** IdempotentService.Detach and Delete *)

Lemma Detach_exec (B : Backend) (w : World B) (volume : Volume.t) :
  let (detachErr, w1) := answer B _ (Service_Detach volume) w in
  exec B (IdempotentService.Detach volume) w
  = (Returned (tolerating ErrNotAttached detachErr), w1,
     [EvDetach volume detachErr]).
Proof.
  destruct (answer B _ (Service_Detach volume) w) as [detachErr w1] eqn:Hd.
  unfold exec, IdempotentService.Detach; simpl. rewrite Hd.
  destruct detachErr as [[] |]; reflexivity.
Qed.

Lemma Delete_exec (B : Backend) (w : World B) (volume : Volume.t) :
  let (detachErr, w1) := answer B _ (Service_Detach volume) w in
  let (deleteErr, w2) := answer B _ (Service_Delete volume) w1 in
  exec B (IdempotentService.Delete volume) w
  = (Returned (tolerating ErrVolumeNotFound deleteErr), w2,
     [EvDetach volume detachErr; EvDelete volume deleteErr]).
Proof.
  destruct (answer B _ (Service_Detach volume) w) as [detachErr w1] eqn:Hd.
  destruct (answer B _ (Service_Delete volume) w1) as [deleteErr w2] eqn:Hx.
  unfold exec, IdempotentService.Delete; simpl. rewrite Hd, Hx.
  destruct deleteErr as [[] |]; reflexivity.
Qed.

(** C6.  [Detach] issues one backend detach and returns success exactly when
    the backend answers success or NotAttached; any other error of the
    backend is returned as it is. *)
Theorem Detach_tolerates_not_attached
        (B : Backend) (w : World B) (volume : Volume.t) :
  exists detachErr w1 r,
    answer B _ (Service_Detach volume) w = (detachErr, w1)
    /\ exec B (IdempotentService.Detach volume) w
       = (Returned r, w1, [EvDetach volume detachErr])
    /\ (r = success <-> detachErr = None \/ detachErr = Some ErrNotAttached)
    /\ (r <> success -> r = detachErr).
Proof.
  pose proof (Detach_exec B w volume) as H.
  destruct (answer B _ (Service_Detach volume) w) as [detachErr w1].
  exists detachErr, w1, (tolerating ErrNotAttached detachErr).
  split; [reflexivity | ]. split; [exact H | ].
  split; [apply tolerating_success | ].
  intros Hr. destruct (tolerating ErrNotAttached detachErr) as [e |] eqn:Ht.
  - apply tolerating_failure in Ht as [-> _]. reflexivity.
  - exfalso; apply Hr; reflexivity.
Qed.

(** On the in-memory backend a delete answers success or VolumeNotFound, so
    [IdempotentService.Delete] always succeeds there. *)
Lemma Delete_sanity (s : sanityVolumeService.state) (volume : Volume.t) :
  fst (fst (exec sanityVolumeService.backend (IdempotentService.Delete volume) s))
  = Returned success
  /\ snd (fst (exec sanityVolumeService.backend (IdempotentService.Delete volume) s))
     = snd (sanityVolumeService.Delete volume s).
Proof.
  unfold exec, IdempotentService.Delete; simpl.
  unfold sanityVolumeService.Delete.
  destruct (sanityVolumeService.remove_first (Volume.ID volume) s);
    simpl; split; reflexivity.
Qed.

(** C4.  On every backend [Delete] issues a detach, throws its answer away,
    and then issues the backend delete; it returns success exactly when the
    delete answers success or VolumeNotFound and returns any other error of
    the delete as it is.  On the in-memory backend, which answers
    VolumeNotFound for a volume it does not hold, deleting a volume and
    deleting it again both succeed, and so does deleting a volume that was
    never there (the state is left as it was). *)
Theorem Delete_detaches_then_deletes :
  (forall (B : Backend) (w : World B) (volume : Volume.t),
      exists detachErr w1 deleteErr w2 r,
        answer B _ (Service_Detach volume) w = (detachErr, w1)
        /\ answer B _ (Service_Delete volume) w1 = (deleteErr, w2)
        /\ exec B (IdempotentService.Delete volume) w
           = (Returned r, w2,
              [EvDetach volume detachErr; EvDelete volume deleteErr])
        /\ (r = success <-> deleteErr = None \/ deleteErr = Some ErrVolumeNotFound)
        /\ (r <> success -> r = deleteErr))
  /\ (forall (s : sanityVolumeService.state) (volume : Volume.t),
         let '(r1, s1, _) :=
           exec sanityVolumeService.backend (IdempotentService.Delete volume) s in
         let '(r2, _, _) :=
           exec sanityVolumeService.backend (IdempotentService.Delete volume) s1 in
         r1 = Returned success /\ r2 = Returned success)
  /\ (forall (s : sanityVolumeService.state) (volume : Volume.t),
         find (sanityVolumeService.by_id (Volume.ID volume)) s = None ->
         exec sanityVolumeService.backend (IdempotentService.Delete volume) s
         = (Returned success, s,
            [EvDetach volume None; EvDelete volume (Some ErrVolumeNotFound)])).
Proof.
  split; [ | split].
  - intros B w volume.
    pose proof (Delete_exec B w volume) as H.
    destruct (answer B _ (Service_Detach volume) w) as [detachErr w1].
    destruct (answer B _ (Service_Delete volume) w1) as [deleteErr w2] eqn:Hx.
    exists detachErr, w1, deleteErr, w2, (tolerating ErrVolumeNotFound deleteErr).
    split; [reflexivity | ]. split; [exact Hx | ]. split; [exact H | ].
    split; [apply tolerating_success | ].
    intros Hr. destruct (tolerating ErrVolumeNotFound deleteErr) as [e |] eqn:Ht.
    + apply tolerating_failure in Ht as [-> _]. reflexivity.
    + exfalso; apply Hr; reflexivity.
  - intros s volume.
    pose proof (Delete_sanity s volume) as [Hr1 _].
    destruct (exec sanityVolumeService.backend (IdempotentService.Delete volume) s)
      as [[r1 s1] tr1].
    pose proof (Delete_sanity s1 volume) as [Hr2 _].
    destruct (exec sanityVolumeService.backend (IdempotentService.Delete volume) s1)
      as [[r2 s2] tr2].
    simpl in Hr1, Hr2. split; assumption.
  - intros s volume Hfind.
    assert (Hrem : sanityVolumeService.remove_first (Volume.ID volume) s = None).
    { induction s as [| v s IH]; simpl in *; [reflexivity | ].
      destruct (sanityVolumeService.by_id (Volume.ID volume) v); [discriminate | ].
      rewrite (IH Hfind). reflexivity. }
    unfold exec, IdempotentService.Delete; simpl.
    unfold sanityVolumeService.Delete. rewrite Hrem. reflexivity.
Qed.

(** A delete that the backend refuses for another reason is surfaced, after
    a detach that was refused too. *)
Example Delete_surfaces_other_errors :
  exec (Examples.refusing Examples.X10_on_1)
       (IdempotentService.Delete Examples.X10_on_1) tt
  = (Returned (Some (ErrOpaque "locked")), tt,
     [EvDetach Examples.X10_on_1 (Some (ErrOpaque "locked"));
      EvDelete Examples.X10_on_1 (Some (ErrOpaque "locked"))]).
Proof. reflexivity. Qed.

(** ** Create twice on the in-memory backend *)

Section SanityCreate.
Import sanityVolumeService.

Lemma find_by_name_none (name : string) (s : state) :
  find (by_name name) s = None -> ~ In name (map Volume.Name s).
Proof.
  induction s as [| v s IH]; simpl; intros Hfind; [tauto | ].
  destruct (by_name name v) eqn:Hv; [discriminate | ].
  intros [Heq | Hin]; [ | exact (IH Hfind Hin)].
  unfold by_name in Hv. rewrite Heq, String.eqb_refl in Hv. discriminate.
Qed.

Lemma find_by_name_fresh (name : string) (s : state) (v : Volume.t) :
  find (by_name name) s = None -> Volume.Name v = name ->
  find (by_name name) (s ++ [v]) = Some v.
Proof.
  intros Hfind Hname.
  induction s as [| u s IH]; simpl in *.
  - unfold by_name. rewrite Hname, String.eqb_refl. reflexivity.
  - destruct (by_name name u); [discriminate | exact (IH Hfind)].
Qed.

Lemma unique_names_fresh (s : state) (v : Volume.t) :
  unique_names s -> ~ In (Volume.Name v) (map Volume.Name s) ->
  unique_names (s ++ [v]).
Proof.
  unfold unique_names. intros Hs Hv.
  rewrite map_app; simpl.
  apply NoDup_app.
  - exact Hs.
  - constructor; [intros [] | constructor].
  - intros a Ha [Heq | []]. subst a. exact (Hv Ha).
Qed.

(** A name that is taken: the backend create fails, the lookup finds the
    holder, nothing is written. *)
Lemma Create_sanity_held (s : state) (opts : CreateOpts.t) (existing : Volume.t) :
  find (by_name (CreateOpts.Name opts)) s = Some existing ->
  exists r,
    exec backend (IdempotentService.Create opts) s
    = (Returned r, s,
       [EvCreate opts (None, Some ErrVolumeAlreadyExists);
        EvGetByName (CreateOpts.Name opts) (Some existing, None)])
    /\ (r = (Some existing, success) <-> CompatibleWith opts existing)
    /\ (~ CompatibleWith opts existing -> r = (None, Some ErrVolumeAlreadyExists)).
Proof.
  intros Hfind.
  assert (Hcreate : answer backend _ (Service_Create opts) s
                    = ((None, Some ErrVolumeAlreadyExists), s)).
  { simpl. unfold Create. rewrite Hfind. reflexivity. }
  pose proof (Create_replay backend s opts None s Hcreate) as H.
  simpl in H. unfold GetByName in H. rewrite Hfind in H.
  exists (checked opts existing). split; [exact H | ].
  apply checked_compatible.
Qed.

(** A name that is free: the backend creates the volume at the end of the
    list, with the requested minimum as its size. *)
Lemma Create_sanity_free (s : state) (opts : CreateOpts.t) :
  find (by_name (CreateOpts.Name opts)) s = None ->
  let volume := {| Volume.ID := N.of_nat (List.length s + 1);
                   Volume.Name := CreateOpts.Name opts;
                   Volume.Size := CreateOpts.MinSize opts;
                   Volume.Location := CreateOpts.Location opts;
                   Volume.Server := None |} in
  exec backend (IdempotentService.Create opts) s
  = (Returned (Some volume, success), s ++ [volume],
     [EvCreate opts (Some volume, None)]).
Proof.
  intros Hfind. unfold exec, IdempotentService.Create; simpl.
  unfold Create. rewrite Hfind. reflexivity.
Qed.

End SanityCreate.

(** C3, as the code has it.  On the in-memory backend, for options whose
    upper bound (when set) is not below the lower bound, and a state in
    which the volume found under the requested name, if any, is compatible
    with the options: both calls of [Create] return the same volume, which
    has the requested name and is compatible with the options; the first
    call creates it when the name was free and nothing else is ever created;
    and a backend whose volumes had distinct names still has distinct names
    after both calls. *)
Theorem Create_twice_same_volume
        (s : sanityVolumeService.state) (opts : CreateOpts.t)
        (Hopts : satisfiable opts)
        (Hholder : holder_compatible opts s) :
  exists v,
    create_twice sanityVolumeService.backend opts s
    = (Returned (Some v, success), Returned (Some v, success),
       match find (sanityVolumeService.by_name (CreateOpts.Name opts)) s with
       | Some _ => s
       | None => s ++ [v]
       end)
    /\ Volume.Name v = CreateOpts.Name opts
    /\ CompatibleWith opts v
    /\ (sanityVolumeService.unique_names s ->
        sanityVolumeService.unique_names
          (snd (create_twice sanityVolumeService.backend opts s))).
Proof.
  unfold create_twice. unfold holder_compatible in Hholder.
  destruct (find (sanityVolumeService.by_name (CreateOpts.Name opts)) s)
    as [existing |] eqn:Hfind.
  - (* the name is taken by a compatible volume: both calls replay *)
    pose proof (Hholder existing eq_refl) as Hcompat.
    destruct (Create_sanity_held s opts existing Hfind) as [r [Hexec [Hiff _]]].
    apply Hiff in Hcompat as Hr. subst r.
    exists existing. rewrite Hexec, Hexec. simpl.
    split; [reflexivity | ].
    split.
    { apply find_some in Hfind as [_ Hname].
      unfold sanityVolumeService.by_name in Hname.
      apply String.eqb_eq in Hname. exact Hname. }
    split; [exact Hcompat | intros Hs; exact Hs].
  - (* the name is free: the first call creates, the second replays *)
    pose proof (Create_sanity_free s opts Hfind) as Hfirst. cbv zeta in Hfirst.
    set (volume := {| Volume.ID := N.of_nat (List.length s + 1);
                      Volume.Name := CreateOpts.Name opts;
                      Volume.Size := CreateOpts.MinSize opts;
                      Volume.Location := CreateOpts.Location opts;
                      Volume.Server := None |}) in *.
    assert (Hcompat : CompatibleWith opts volume).
    { unfold CompatibleWith, satisfiable in *. simpl.
      split; [lia | split; [lia | reflexivity]]. }
    assert (Hheld : find (sanityVolumeService.by_name (CreateOpts.Name opts))
                         (s ++ [volume]) = Some volume)
      by (apply find_by_name_fresh; [exact Hfind | reflexivity]).
    destruct (Create_sanity_held (s ++ [volume]) opts volume Hheld)
      as [r [Hexec [Hiff _]]].
    apply Hiff in Hcompat as Hr. subst r.
    exists volume. rewrite Hfirst, Hexec. simpl.
    split; [reflexivity | ].
    split; [reflexivity | ].
    split; [exact Hcompat | ].
    intros Hs. apply unique_names_fresh; [exact Hs | ].
    apply find_by_name_none. exact Hfind.
Qed.

(** On the empty backend the first call creates X and the second returns it;
    on a backend that holds a compatible X both calls return the held one. *)
Lemma Create_twice_same_volume_witness :
  (exists v,
      create_twice sanityVolumeService.backend Examples.X_min10 []
      = (Returned (Some v, success), Returned (Some v, success), [] ++ [v])
      /\ Volume.Name v = "X"
      /\ CompatibleWith Examples.X_min10 v
      /\ (sanityVolumeService.unique_names [] ->
          sanityVolumeService.unique_names
            (snd (create_twice sanityVolumeService.backend Examples.X_min10 []))))
  /\ (exists v,
         create_twice sanityVolumeService.backend Examples.X_min10 [Examples.X10]
         = (Returned (Some v, success), Returned (Some v, success), [Examples.X10])
         /\ Volume.Name v = "X"
         /\ CompatibleWith Examples.X_min10 v
         /\ (sanityVolumeService.unique_names [Examples.X10] ->
             sanityVolumeService.unique_names
               (snd (create_twice sanityVolumeService.backend Examples.X_min10
                                  [Examples.X10])))).
Proof.
  split.
  - apply (Create_twice_same_volume [] Examples.X_min10).
    + unfold satisfiable; simpl; lia.
    + intros existing H; discriminate H.
  - apply (Create_twice_same_volume [Examples.X10] Examples.X_min10).
    + unfold satisfiable; simpl; lia.
    + intros existing H. injection H as <-.
      unfold CompatibleWith; simpl. split; [lia | split; [lia | reflexivity]].
Defined.

Example Create_twice_fresh :
  create_twice sanityVolumeService.backend Examples.X_min10 []
  = (Returned (Some Examples.X10, success),
     Returned (Some Examples.X10, success), [Examples.X10]).
Proof. reflexivity. Qed.

(** C3 as stated fails.  With X of size 5 held and at least 10 requested, both
    calls fail with VolumeAlreadyExists and neither returns a volume.  With
    the bounds 10 and 5 on an empty backend, the first call creates a volume
    of size 10 and the second refuses it as too large. *)
Lemma Create_twice_counterexample :
  create_twice sanityVolumeService.backend Examples.X_min10 [Examples.X5]
  = (Returned (None, Some ErrVolumeAlreadyExists),
     Returned (None, Some ErrVolumeAlreadyExists), [Examples.X5])
  /\ create_twice sanityVolumeService.backend Examples.Y_min10_max5 []
     = (Returned (Some (Examples.volume 1 "Y" 10 "fsn1" None), success),
        Returned (None, Some ErrVolumeAlreadyExists),
        [Examples.volume 1 "Y" 10 "fsn1" None])
  /\ ~ (forall (s : sanityVolumeService.state) (opts : CreateOpts.t),
           exists v1 v2,
             create_twice sanityVolumeService.backend opts s
             = (Returned (Some v1, success), Returned (Some v2, success),
                snd (create_twice sanityVolumeService.backend opts s))
             /\ Volume.ID v1 = Volume.ID v2).
Proof.
  split; [reflexivity | split; [reflexivity | ]].
  intros H. destruct (H [Examples.X5] Examples.X_min10) as [v1 [v2 [Heq _]]].
  vm_compute in Heq. discriminate.
Qed.

(** ** Process startup *)

(** Where an event can occur in a trace that is written out. *)
Lemma occurs_nil {Ev : Type} (pre : list Ev) (x : Ev) (post : list Ev) :
  ~ occurs [] pre x post.
Proof. unfold occurs. destruct pre; discriminate. Qed.

Lemma occurs_cons {Ev : Type} (a : Ev) (tr pre : list Ev) (x : Ev) (post : list Ev) :
  occurs (a :: tr) pre x post ->
  (pre = [] /\ x = a /\ post = tr)
  \/ (exists pre', pre = a :: pre' /\ occurs tr pre' x post).
Proof.
  unfold occurs. destruct pre as [| b pre]; simpl; intros H; injection H as -> ->.
  - left; auto.
  - right; eauto.
Qed.

(** The string functions stay folded while [main] is run symbolically. *)
Local Arguments String.prefix : simpl never.
Local Arguments String.eqb : simpl never.
Local Arguments substring : simpl never.
Local Arguments String.length : simpl never.

(** One step of a symbolic run: name the answer the run is waiting for, or
    split on the test [main] makes next. *)
Ltac unblock :=
  match goal with
  | |- context [sys_answer ?Env ?X ?c ?w] =>
      destruct (sys_answer Env X c w) as [? ?] eqn:?
  | |- context [run _ _ ?p _] =>
      match p with
      | context [match ?x with Some _ => _ | None => _ end] => destruct x eqn:?
      | context [let (_, _) := ?x in _] => destruct x
      | context [if ?b then _ else _] => destruct b eqn:?
      end
  end; simpl.

(** All the places of a written-out trace where the event of [H] can be. *)
Ltac occurrences H :=
  first
    [ apply occurs_nil in H; contradiction
    | let Hx := fresh "Hx" in
      let pre' := fresh "pre" in
      apply occurs_cons in H;
      destruct H as [[-> [Hx ->]] | [pre' [-> H]]];
      [ try (inversion Hx; subst; clear Hx) | occurrences H ] ].

Ltac bools :=
  repeat match goal with
         | H : negb _ = false |- _ => apply negb_false_iff in H
         | H : negb _ = true |- _ => apply negb_true_iff in H
         end.

Ltac find_in := simpl; repeat (first [ left; reflexivity | right ]).

(** C7.  In every environment, whenever [main] sets the identity service
    ready, the lookup of the plugin's own server has answered before, with a
    server and without an error; and a lookup that answers with an error is
    the last thing the process does: it exits with status 1. *)
Theorem ready_only_after_handshake (Env : Environment) (w : Sys_World Env) :
  let '(o, _, tr) := start Env w in
  (forall pre post, occurs tr pre (EvSetReady true) post ->
     exists id server, In (EvServerGetByID id (Some server, None)) pre)
  /\ (forall pre id server err post,
         occurs tr pre (EvServerGetByID id (server, Some err)) post ->
         post = [] /\ o = Halted (Exited 1)).
Proof.
  unfold start, main, getServerID, getInstanceID; simpl.
  repeat unblock.
  all: split; [intros pre post H | intros pre id server err post H]; occurrences H.
  all: try (split; reflexivity).
  all: try (do 2 eexists; find_in).
Qed.

(** C8.  In every environment, the trace of [main] starts with the read of
    CSI_ENDPOINT, and: an endpoint that starts with unix:// has the file at
    the endpoint path (the endpoint without that prefix) removed as the very
    next step, and when the removal answers success or that no such file
    exists [main] goes on to read HCLOUD_TOKEN; whenever [main] binds the
    listener, the endpoint starts with unix://, the listener is bound on the
    endpoint path, and the file at that path was removed before, the removal
    answering success or that no such file exists; a removal that fails for
    another reason is the last thing the process does: it exits with status
    1 and never binds; an endpoint that does not start with unix:// makes
    the process exit with status 2 with nothing done after the read, so
    before any removal. *)
Theorem socket_removed_before_bind (Env : Environment) (w : Sys_World Env) :
  let '(o, _, tr) := start Env w in
  exists endpoint rest,
    tr = EvGetenv "CSI_ENDPOINT" endpoint :: rest
    /\ (forall pre network address r post,
           occurs tr pre (EvListen network address r) post ->
           String.prefix "unix://" endpoint = true
           /\ network = "unix"
           /\ address = substring 7 (String.length endpoint - 7) endpoint
           /\ exists removed,
               In (EvRemove address removed) pre
               /\ (removed = None
                   \/ exists err, removed = Some err /\ IsNotExist err = true))
    /\ (forall pre name err post,
           occurs tr pre (EvRemove name (Some err)) post ->
           IsNotExist err = false ->
           post = [] /\ o = Halted (Exited 1)
           /\ forall network address r, ~ In (EvListen network address r) tr)
    /\ (String.prefix "unix://" endpoint = false ->
        rest = [] /\ o = Halted (Exited 2))
    /\ (String.prefix "unix://" endpoint = true ->
        exists removed rest',
          rest = EvRemove (substring 7 (String.length endpoint - 7) endpoint) removed
                   :: rest'
          /\ ((removed = None
               \/ exists err, removed = Some err /\ IsNotExist err = true) ->
              exists token rest'',
                rest' = EvGetenv "HCLOUD_TOKEN" token :: rest'')).
Proof.
  unfold start, main, getServerID, getInstanceID; simpl.
  repeat unblock.
  all: bools.
  all: eexists; eexists; split; [reflexivity | ].
  all: split;
    [ (* a bind is preceded by a removal that succeeded or found no file *)
      intros pre network address r post H; occurrences H;
      (split; [assumption | split; [reflexivity | split; [reflexivity | ]]];
       eexists; split; [find_in | ];
       first [ left; reflexivity
             | right; eexists; split; [reflexivity | assumption] ])
    | split;
      [ (* a removal that failed otherwise is the last thing that happens *)
        intros pre name err post H Hne; occurrences H; try congruence;
        (split; [reflexivity | split; [reflexivity | ]];
         intros network address r Hin; simpl in Hin;
         repeat (destruct Hin as [Hin | Hin]; [discriminate Hin | ]);
         exact Hin)
      | split;
        [ (* an endpoint without the prefix is rejected at once *)
          intros Hprefix; first [split; reflexivity | congruence]
        | (* an endpoint with the prefix has its socket file removed next *)
          intros Hprefix;
          first
            [ congruence
            | match goal with
              | E : String.eqb _ _ = true |- _ =>
                  apply String.eqb_eq in E; subst;
                  vm_compute in Hprefix; discriminate Hprefix
              end
            | do 2 eexists; split; [reflexivity | ]; intros Hok;
              first
                [ do 2 eexists; reflexivity
                | destruct Hok as [Hn | [err' [He Hne]]];
                  [ discriminate Hn | injection He as <-; congruence ] ] ] ] ] ].
Qed.

(** A clean start: the stale socket is removed, the server is fetched, the
    listener is bound, and only then the service is marked ready. *)
Example start_clean :
  start (Examples.environment "unix:///run/csi.sock" None (Some Examples.node, None)) tt
  = (Returned tt, tt,
     [EvGetenv "CSI_ENDPOINT" "unix:///run/csi.sock";
      EvRemove "/run/csi.sock" None;
      EvGetenv "HCLOUD_TOKEN" "token";
      EvGetenv "HCLOUD_SERVER_ID" "42";
      EvAtoi "42" (42%Z, None);
      EvServerGetByID 42 (Some Examples.node, None);
      EvListen "unix" "/run/csi.sock" None;
      EvSetReady true;
      EvServe None]).
Proof. reflexivity. Qed.

(** The server lookup fails: exit 1, nothing bound, never ready. *)
Example start_fetch_fails :
  start (Examples.environment "unix:///run/csi.sock" (Some Examples.ENOENT)
                              (None, Some Examples.EPERM)) tt
  = (Halted (Exited 1), tt,
     [EvGetenv "CSI_ENDPOINT" "unix:///run/csi.sock";
      EvRemove "/run/csi.sock" (Some Examples.ENOENT);
      EvGetenv "HCLOUD_TOKEN" "token";
      EvGetenv "HCLOUD_SERVER_ID" "42";
      EvAtoi "42" (42%Z, None);
      EvServerGetByID 42 (None, Some Examples.EPERM)]).
Proof. reflexivity. Qed.

(** The lookup answers neither a server nor an error: [main] panics on
    [server.Name], before the service is marked ready. *)
Example start_fetch_nil :
  fst (fst (start (Examples.environment "unix:///run/csi.sock" None (None, None)) tt))
  = Halted Panicked.
Proof. reflexivity. Qed.

(** The socket file cannot be removed: exit 1 right after the removal. *)
Example start_remove_fails :
  start (Examples.environment "unix:///run/csi.sock" (Some Examples.EPERM)
                              (Some Examples.node, None)) tt
  = (Halted (Exited 1), tt,
     [EvGetenv "CSI_ENDPOINT" "unix:///run/csi.sock";
      EvRemove "/run/csi.sock" (Some Examples.EPERM)]).
Proof. reflexivity. Qed.

(** A TCP endpoint: exit 2 before anything is removed. *)
Example start_tcp_endpoint :
  start (Examples.environment "tcp://127.0.0.1:9000" None (Some Examples.node, None)) tt
  = (Halted (Exited 2), tt, [EvGetenv "CSI_ENDPOINT" "tcp://127.0.0.1:9000"]).
Proof. reflexivity. Qed.

(** * Further properties of the code *)

(** ** volumes/stats.go *)

Lemma int64_small (z : Z) : is_int64 z -> int64 z = z.
Proof.
  unfold is_int64, int64. intros H.
  rewrite Z.mod_small by lia. lia.
Qed.

Lemma int64_is_int64 (z : Z) : is_int64 (int64 z).
Proof.
  unfold is_int64, int64.
  pose proof (Z.mod_pos_bound (z + 2 ^ 63) (2 ^ 64) ltac:(lia)). lia.
Qed.

Lemma int64_shift (z k : Z) : int64 (z + k * 2 ^ 64) = int64 z.
Proof.
  unfold int64.
  replace (z + k * 2 ^ 64 + 2 ^ 63)%Z with (z + 2 ^ 63 + k * 2 ^ 64)%Z by lia.
  rewrite Z.mod_add by lia. reflexivity.
Qed.

Lemma int64_residue (z : Z) : exists k, int64 z = (z + k * 2 ^ 64)%Z.
Proof.
  exists (- ((z + 2 ^ 63) / 2 ^ 64))%Z. unfold int64.
  pose proof (Z.div_mod (z + 2 ^ 63) (2 ^ 64) ltac:(lia)). lia.
Qed.

(** X1.  When [Statfs] succeeds and the inode counters are plausible (the
    free count does not exceed the total, which is below 2^63), the inode
    statistics are the counters themselves: total, free, and their
    difference as the used count, which lies between 0 and the total. *)
Theorem INodeFilesystemStats_exact
        (F : Filesystem) (w w1 : FS_World F) (path : string) (st : Statfs_t.t)
        (Hok : fs_answer F _ (Statfs path) w = ((st, None), w1))
        (Hfree : (0 <= Statfs_t.Ffree st <= Statfs_t.Files st)%Z)
        (Htotal : (Statfs_t.Files st < 2 ^ 63)%Z) :
  stat F (LinuxStatsService.INodeFilesystemStats path) w
  = (Returned (Statfs_t.Files st,
               (Statfs_t.Files st - Statfs_t.Ffree st)%Z,
               Statfs_t.Ffree st, None),
     w1, [EvStatfs path (st, None)])
  /\ (0 <= Statfs_t.Files st - Statfs_t.Ffree st <= Statfs_t.Files st)%Z.
Proof.
  split; [ | lia].
  unfold stat, LinuxStatsService.INodeFilesystemStats; simpl. rewrite Hok; simpl.
  unfold sub64.
  rewrite (int64_small (Statfs_t.Files st)) by (unfold is_int64; lia).
  rewrite (int64_small (Statfs_t.Ffree st)) by (unfold is_int64; lia).
  rewrite int64_small by (unfold is_int64; lia).
  reflexivity.
Qed.

Lemma INodeFilesystemStats_exact_witness :
  stat (Examples.filesystem Examples.disk None)
       (LinuxStatsService.INodeFilesystemStats "/mnt/data") tt
  = (Returned (655360, 360, 655000, None)%Z, tt,
     [EvStatfs "/mnt/data" (Examples.disk, None)])
  /\ (0 <= 655360 - 655000 <= 655360)%Z.
Proof.
  apply (INodeFilesystemStats_exact
           (Examples.filesystem Examples.disk None) tt tt "/mnt/data"
           Examples.disk eq_refl); simpl; lia.
Defined.

(** X2.  Whatever a successful [Statfs] reports, also counters of 2^63 and
    more that turn negative as [int64]: the three inode results are [int64]
    values, and used plus free, added in [int64], is the total. *)
Theorem INodeFilesystemStats_adds_up
        (F : Filesystem) (w w1 : FS_World F) (path : string) (st : Statfs_t.t)
        (Hok : fs_answer F _ (Statfs path) w = ((st, None), w1)) :
  exists total used free,
    stat F (LinuxStatsService.INodeFilesystemStats path) w
    = (Returned (total, used, free, None), w1, [EvStatfs path (st, None)])
    /\ is_int64 total /\ is_int64 used /\ is_int64 free
    /\ int64 (used + free) = total.
Proof.
  unfold stat, LinuxStatsService.INodeFilesystemStats; simpl. rewrite Hok; simpl.
  do 3 eexists. split; [reflexivity | ].
  split; [apply int64_is_int64 | ].
  split; [apply int64_is_int64 | ].
  split; [apply int64_is_int64 | ].
  unfold sub64.
  destruct (int64_residue (int64 (Statfs_t.Files st) - int64 (Statfs_t.Ffree st)))
    as [k Hk].
  rewrite Hk.
  replace (int64 (Statfs_t.Files st) - int64 (Statfs_t.Ffree st) + k * 2 ^ 64
           + int64 (Statfs_t.Ffree st))%Z
    with (int64 (Statfs_t.Files st) + k * 2 ^ 64)%Z by lia.
  rewrite int64_shift. apply int64_small, int64_is_int64.
Qed.

Lemma INodeFilesystemStats_adds_up_witness :
  exists total used free,
    stat (Examples.filesystem Examples.disk None)
         (LinuxStatsService.INodeFilesystemStats "/mnt/data") tt
    = (Returned (total, used, free, None), tt,
       [EvStatfs "/mnt/data" (Examples.disk, None)])
    /\ is_int64 total /\ is_int64 used /\ is_int64 free
    /\ int64 (used + free) = total.
Proof.
  exact (INodeFilesystemStats_adds_up
           (Examples.filesystem Examples.disk None) tt tt "/mnt/data"
           Examples.disk eq_refl).
Defined.

(** X3.  When [Statfs] succeeds with fields of their Go types, a positive
    block size, a capacity
    [Blocks * Bsize] below 2^63 bytes, and [Bavail <= Bfree <= Blocks], no
    operation wraps: the available bytes are [Bavail * Bsize], the used bytes
    are [(Blocks - Bfree) * Bsize], both are non-negative, and together they
    do not exceed the capacity. *)
Theorem ByteFilesystemStats_exact
        (F : Filesystem) (w w1 : FS_World F) (path : string) (st : Statfs_t.t)
        (Hok : fs_answer F _ (Statfs path) w = ((st, None), w1))
        (Htyped : well_typed st)
        (Hsize : (0 < Statfs_t.Bsize st)%Z)
        (Hcap : (Statfs_t.Blocks st * Statfs_t.Bsize st < 2 ^ 63)%Z)
        (Havail : (0 <= Statfs_t.Bavail st <= Statfs_t.Bfree st)%Z)
        (Hfree : (Statfs_t.Bfree st <= Statfs_t.Blocks st)%Z) :
  stat F (LinuxStatsService.ByteFilesystemStats path) w
  = (Returned ((Statfs_t.Bavail st * Statfs_t.Bsize st)%Z,
               ((Statfs_t.Blocks st - Statfs_t.Bfree st) * Statfs_t.Bsize st)%Z,
               None),
     w1, [EvStatfs path (st, None)])
  /\ (0 <= Statfs_t.Bavail st * Statfs_t.Bsize st)%Z
  /\ (0 <= (Statfs_t.Blocks st - Statfs_t.Bfree st) * Statfs_t.Bsize st)%Z
  /\ (Statfs_t.Bavail st * Statfs_t.Bsize st
      + (Statfs_t.Blocks st - Statfs_t.Bfree st) * Statfs_t.Bsize st
      <= Statfs_t.Blocks st * Statfs_t.Bsize st)%Z.
Proof.
  destruct Htyped as [[_ Hbs] _].
  set (bs := Statfs_t.Bsize st) in *. set (b := Statfs_t.Blocks st) in *.
  set (f := Statfs_t.Bfree st) in *. set (a := Statfs_t.Bavail st) in *.
  assert (Hb : (b <= b * bs)%Z) by nia.
  assert (Ha : (0 <= a * bs <= b * bs)%Z) by nia.
  assert (Hu : (0 <= (b - f) * bs <= b * bs)%Z) by nia.
  split; [ | split; [lia | split; [lia | nia]]].
  unfold stat, LinuxStatsService.ByteFilesystemStats; simpl. rewrite Hok; simpl.
  fold bs b f a. unfold mul64, sub64.
  rewrite (int64_small bs) by (unfold is_int64; lia).
  rewrite (int64_small a) by (unfold is_int64; lia).
  rewrite (int64_small b) by (unfold is_int64; lia).
  rewrite (int64_small f) by (unfold is_int64; lia).
  rewrite (int64_small (b - f)) by (unfold is_int64; lia).
  rewrite (int64_small (a * bs)) by (unfold is_int64; lia).
  rewrite (int64_small ((b - f) * bs)) by (unfold is_int64; lia).
  reflexivity.
Qed.

Lemma ByteFilesystemStats_exact_witness :
  stat (Examples.filesystem Examples.disk None)
       (LinuxStatsService.ByteFilesystemStats "/mnt/data") tt
  = (Returned (7782400000, 2545418240, None)%Z, tt,
     [EvStatfs "/mnt/data" (Examples.disk, None)])
  /\ (0 <= 1900000 * 4096)%Z
  /\ (0 <= (2621440 - 2000000) * 4096)%Z
  /\ (1900000 * 4096 + (2621440 - 2000000) * 4096 <= 2621440 * 4096)%Z.
Proof.
  apply (ByteFilesystemStats_exact
           (Examples.filesystem Examples.disk None) tt tt "/mnt/data"
           Examples.disk eq_refl);
    unfold well_typed, is_int64, is_uint64; simpl; lia.
Defined.

(** X4.  When [Statfs] fails, both functions return its error with every
    number zero, whatever the structure holds, after that single call. *)
Theorem stats_on_error
        (F : Filesystem) (w w1 : FS_World F) (path : string)
        (st : Statfs_t.t) (err : oserror)
        (Hfail : fs_answer F _ (Statfs path) w = ((st, Some err), w1)) :
  stat F (LinuxStatsService.ByteFilesystemStats path) w
  = (Returned (0, 0, Some err)%Z, w1, [EvStatfs path (st, Some err)])
  /\ stat F (LinuxStatsService.INodeFilesystemStats path) w
     = (Returned (0, 0, 0, Some err)%Z, w1, [EvStatfs path (st, Some err)]).
Proof.
  unfold stat, LinuxStatsService.ByteFilesystemStats,
    LinuxStatsService.INodeFilesystemStats; simpl.
  rewrite Hfail. split; reflexivity.
Qed.

Lemma stats_on_error_witness :
  stat (Examples.filesystem Examples.disk (Some Examples.ENOENT))
       (LinuxStatsService.ByteFilesystemStats "/mnt/gone") tt
  = (Returned (0, 0, Some Examples.ENOENT)%Z, tt,
     [EvStatfs "/mnt/gone" (Examples.disk, Some Examples.ENOENT)])
  /\ stat (Examples.filesystem Examples.disk (Some Examples.ENOENT))
          (LinuxStatsService.INodeFilesystemStats "/mnt/gone") tt
     = (Returned (0, 0, 0, Some Examples.ENOENT)%Z, tt,
        [EvStatfs "/mnt/gone" (Examples.disk, Some Examples.ENOENT)]).
Proof.
  exact (stats_on_error
           (Examples.filesystem Examples.disk (Some Examples.ENOENT)) tt tt
           "/mnt/gone" Examples.disk Examples.ENOENT eq_refl).
Defined.

(** ** main.go: the server ID *)

(** A written-out trace ends with its last event. *)
Ltac ends :=
  match goal with
  | |- ends_with ?tr _ => exists (removelast tr); reflexivity
  end.

(** Tests against the empty string, as equations. *)
Ltac empties :=
  repeat match goal with
         | H : String.eqb _ _ = true |- _ => apply String.eqb_eq in H
         | H : String.eqb _ _ = false |- _ => apply String.eqb_neq in H
         end.

(** X5.  [getServerID] reads HCLOUD_SERVER_ID first.  When it is set, the
    metadata service is never asked: the value is parsed, and the result is
    the parsed ID, or exit status 1 when it does not parse.  When it is
    empty, the next step is the GET to the metadata address. *)
Theorem getServerID_override (Env : Environment) (w : Sys_World Env) :
  let '(o, _, tr) := run_getServerID Env w in
  exists s rest,
    tr = EvGetenv "HCLOUD_SERVER_ID" s :: rest
    /\ (s <> "" ->
        existsb is_http tr = false
        /\ exists id err,
            rest = [EvAtoi s (id, err)]
            /\ o = match err with
                   | None => Returned id
                   | Some _ => Halted (Exited 1)
                   end)
    /\ (s = "" -> exists g rest', rest = EvHttpGet metadata_url g :: rest').
Proof.
  unfold run_getServerID, getServerID, getInstanceID; simpl.
  repeat unblock.
  all: bools; empties.
  all: eexists; eexists; split; [reflexivity | split]; intros Hs;
    try contradiction; try (subst; contradiction).
  all: try (split; [reflexivity | do 2 eexists; split; reflexivity]).
  all: try (do 2 eexists; reflexivity).
Qed.

(** X6.  [getInstanceID] starts with the GET to the metadata address.  When
    the GET fails nothing is read or closed and the result is 0 with that
    error.  When it succeeds the body is closed exactly once, as the last
    step: after a failed read (result 0 with the read error, nothing
    parsed), or after the body has been read and parsed (result: what the
    parse returned). *)
Theorem getInstanceID_closes_body (Env : Environment) (w : Sys_World Env) :
  let '(o, _, tr) := run_getInstanceID Env w in
  exists g rest,
    tr = EvHttpGet metadata_url g :: rest
    /\ match g with
       | Some e => rest = [] /\ o = Returned (0%Z, Some e)
       | None =>
           List.length (filter is_close tr) = 1%nat
           /\ ends_with tr EvBodyClose
           /\ exists body rerr,
               match rerr with
               | Some e =>
                   rest = [EvReadAll (body, Some e); EvBodyClose]
                   /\ o = Returned (0%Z, Some e)
               | None =>
                   exists r,
                   rest = [EvReadAll (body, None); EvAtoi body r; EvBodyClose]
                   /\ o = Returned r
               end
       end.
Proof.
  unfold run_getInstanceID, getInstanceID; simpl.
  repeat unblock.
  all: eexists; eexists; split; [reflexivity | ]; simpl.
  - split; reflexivity.
  - split; [reflexivity | split; [ends | ]].
    match goal with
    | |- context [EvReadAll (?body, Some ?e)] => exists body, (Some e)
    end.
    split; reflexivity.
  - split; [reflexivity | split; [ends | ]].
    match goal with
    | |- context [EvReadAll (?body, None)] => exists body, None
    end.
    eexists. split; reflexivity.
Qed.

(** ** main.go: the order of startup *)

(** X7.  In every environment: an empty HCLOUD_TOKEN is the last thing [main]
    reads, and the process exits with status 2; and every request to the
    metadata service or to the cloud API comes after HCLOUD_TOKEN was read
    and found non-empty. *)
Theorem token_checked_before_remote (Env : Environment) (w : Sys_World Env) :
  let '(o, _, tr) := start Env w in
  (forall pre post,
      occurs tr pre (EvGetenv "HCLOUD_TOKEN" "") post ->
      post = [] /\ o = Halted (Exited 2))
  /\ (forall pre x post,
         occurs tr pre x post -> is_remote x = true ->
         exists token, token <> "" /\ In (EvGetenv "HCLOUD_TOKEN" token) pre).
Proof.
  unfold start, main, getServerID, getInstanceID; simpl.
  repeat unblock.
  all: bools; empties.
  all: split; [intros pre post H | intros pre x post H Hrem].
  all: occurrences H.
  all: try (subst; simpl in *; discriminate).
  all: try congruence.
  all: try (split; reflexivity).
  all: eexists; (split; [ | find_in]); assumption.
Qed.

(** X8.  In every environment: the service is marked ready only after the
    listener was bound without error; serving starts only after the service
    was marked ready, is the last thing [main] does, and decides how the
    process ends (a normal return when it ends without error, exit status 1
    otherwise); a failed bind is the last thing [main] does, with exit
    status 1; and [main] returns normally only at the end of serving. *)
Theorem serve_only_when_bound_and_ready (Env : Environment) (w : Sys_World Env) :
  let '(o, _, tr) := start Env w in
  (forall pre post,
      occurs tr pre (EvSetReady true) post ->
      exists address, In (EvListen "unix" address None) pre)
  /\ (forall pre r post,
         occurs tr pre (EvServe r) post ->
         In (EvSetReady true) pre /\ post = []
         /\ o = match r with
                | None => Returned tt
                | Some _ => Halted (Exited 1)
                end)
  /\ (forall pre network address err post,
         occurs tr pre (EvListen network address (Some err)) post ->
         post = [] /\ o = Halted (Exited 1))
  /\ (o = Returned tt -> ends_with tr (EvServe None)).
Proof.
  unfold start, main, getServerID, getInstanceID; simpl.
  repeat unblock.
  all: split;
    [ intros pre post H; occurrences H; (eexists; find_in)
    | split;
      [ intros pre r post H; occurrences H;
        (split; [find_in | split; reflexivity])
      | split;
        [ intros pre network address err post H; occurrences H;
          (split; reflexivity)
        | intros Ho; first [discriminate Ho | ends] ] ] ].
Qed.

(** X9.  In every environment, the ID [main] looks up at the cloud API is an
    ID that was parsed without error before, from the value of
    HCLOUD_SERVER_ID when that is set, and from the body the metadata service
    returned when it is empty. *)
Theorem fetched_server_is_the_configured_one
        (Env : Environment) (w : Sys_World Env) :
  let '(_, _, tr) := start Env w in
  forall pre id r post,
    occurs tr pre (EvServerGetByID id r) post ->
    exists s,
      In (EvAtoi s (id, None)) pre
      /\ ((s <> "" /\ In (EvGetenv "HCLOUD_SERVER_ID" s) pre)
          \/ (In (EvGetenv "HCLOUD_SERVER_ID" "") pre
              /\ In (EvReadAll (s, None)) pre)).
Proof.
  unfold start, main, getServerID, getInstanceID; simpl.
  repeat unblock.
  all: bools; empties.
  all: intros pre id r post H; occurrences H.
  all: eexists; (split; [find_in | ]).
  all: first [ left; split; [assumption | find_in]
             | right; subst; split; find_in ].
Qed.

(** X10.  In every environment, [main] exits with status 1 or 2 only; it
    panics exactly when the server lookup answers without an error and
    without a server that has a datacenter and a location, and then the
    lookup is the last thing it did. *)
Theorem startup_exits_and_panics (Env : Environment) (w : Sys_World Env) :
  let '(o, _, tr) := start Env w in
  (forall code, o = Halted (Exited code) -> code = 1%Z \/ code = 2%Z)
  /\ (o = Halted Panicked ->
      exists id server,
        ends_with tr (EvServerGetByID id (server, None))
        /\ located server = false)
  /\ (forall pre id server post,
         occurs tr pre (EvServerGetByID id (server, None)) post ->
         located server = false ->
         post = [] /\ o = Halted Panicked).
Proof.
  unfold start, main, getServerID, getInstanceID; simpl.
  repeat unblock.
  all: split;
    [ intros code Ho; first [discriminate Ho | injection Ho as <-; auto]
    | split;
      [ intros Ho;
        first [ discriminate Ho
              | do 2 eexists; split; [ends | ]; unfold located;
                repeat match goal with
                       | E : hcloud.Datacenter _ = _ |- _ => rewrite E
                       | E : hcloud.Location _ = _ |- _ => rewrite E
                       end;
                reflexivity ]
      | intros pre id server post H Hloc; occurrences H;
        first [ split; reflexivity
              | unfold located in Hloc;
                repeat match goal with
                       | E : hcloud.Datacenter _ = _ |- _ => rewrite E in Hloc
                       | E : hcloud.Location _ = _ |- _ => rewrite E in Hloc
                       end;
                discriminate Hloc ] ] ].
Qed.

(** ** main.go: the request logger *)

(** X11.  Around any handler, the interceptor returns exactly what the
    handler returned, response and error together; it calls the handler
    once, with the request it was given, between two log lines: the first at
    debug level with the request, the last at error level with the error
    when the handler failed and at debug level when it did not. *)
Theorem requestLogger_transparent
        {Req Resp Err W : Type}
        (handle : forall X, Rpc Req Resp Err X -> W -> X * W)
        (req : Req) (w : W) :
  let '(o, _, tr) := run rpc_observe handle (requestLogger req) w in
  exists r,
    o = Returned r
    /\ tr = [EvLog LevelDebug "handling request" [KeyReq req];
             EvHandler req r;
             match snd r with
             | Some e => EvLog LevelError "handler failed" [KeyErr e]
             | None => EvLog LevelDebug "finished handling request" []
             end]
    /\ List.length (filter is_handler tr) = 1%nat
    /\ (existsb is_error_log tr = true <-> snd r <> None).
Proof.
  unfold requestLogger; simpl.
  destruct (handle unit (Log LevelDebug "handling request" [KeyReq req]) w)
    as [[] w1].
  destruct (handle _ (Handler req) w1) as [[resp [e |]] w2]; simpl.
  - destruct (handle unit (Log LevelError "handler failed" [KeyErr e]) w2)
      as [[] w3].
    exists (resp, Some e). repeat split; try reflexivity; discriminate.
  - destruct (handle unit (Log LevelDebug "finished handling request" []) w2)
      as [[] w3].
    exists (resp, None). repeat split; try reflexivity; try discriminate.
    intros H; exfalso; apply H; reflexivity.
Qed.

(** ** IdempotentService.Create on every backend *)

(** X12.  Whenever [Create] returns, exactly one of the volume and the error
    is nil. *)
Theorem Create_volume_or_error
        (B : Backend) (w w' : World B) (opts : CreateOpts.t)
        (v : option Volume.t) (err : option error) (tr : list BackendEvent)
        (Hexec : exec B (IdempotentService.Create opts) w
                 = (Returned (v, err), w', tr)) :
  v = None <-> err <> None.
Proof.
  unfold exec, IdempotentService.Create in Hexec; simpl in Hexec.
  destruct (answer B _ (Service_Create opts) w) as [[cv [ce |]] w1];
    simpl in Hexec.
  - destruct (error_eqb ce ErrVolumeAlreadyExists); simpl in Hexec.
    + destruct (answer B _ (Service_GetByName (CreateOpts.Name opts)) w1)
        as [[ev [ge |]] w2]; simpl in Hexec.
      * injection Hexec as <- <- _ _. split; [discriminate | reflexivity].
      * destruct ev as [ev |]; simpl in Hexec.
        -- destruct (Volume.Size ev <? CreateOpts.MinSize opts)%Z;
             [injection Hexec as <- <- _ _; split; [discriminate | reflexivity] | ].
           destruct ((CreateOpts.MaxSize opts >? 0)%Z
                     && (Volume.Size ev >? CreateOpts.MaxSize opts)%Z)%bool;
             [injection Hexec as <- <- _ _; split; [discriminate | reflexivity] | ].
           destruct (negb (String.eqb (Volume.Location ev) (CreateOpts.Location opts)));
             injection Hexec as <- <- _ _.
           ++ split; [discriminate | reflexivity].
           ++ split; [discriminate | intros H; exfalso; apply H; reflexivity].
        -- injection Hexec as <- <- _ _. split; [discriminate | reflexivity].
    + injection Hexec as <- <- _ _. split; [discriminate | reflexivity].
  - destruct cv as [cv |]; simpl in Hexec; [ | discriminate Hexec].
    injection Hexec as <- <- _ _.
    split; [discriminate | intros H; exfalso; apply H; reflexivity].
Qed.

Lemma Create_volume_or_error_witness :
  Some Examples.X10 = None <-> success <> None.
Proof.
  exact (Create_volume_or_error
           sanityVolumeService.backend [Examples.X10] [Examples.X10]
           Examples.X_min10 (Some Examples.X10) success _ eq_refl).
Defined.

(** How a statement about a halt is settled once the outcome is known. *)
Ltac halted :=
  split;
  [ intros Hh; first [discriminate Hh | injection Hh as <-; split; reflexivity]
  | intros [Hh Ha]; first [discriminate Ha | subst; reflexivity] ].

(** [Create] halts only by the panic on an empty answer to the create. *)
Lemma Create_halts (B : Backend) (w : World B) (opts : CreateOpts.t) (h : halt) :
  fst (fst (exec B (IdempotentService.Create opts) w)) = Halted h
  <-> h = Panicked
      /\ answers_something (fst (answer B _ (Service_Create opts) w)) = false.
Proof.
  destruct (answer B _ (Service_Create opts) w) as [[cv [ce |]] w1] eqn:Hc.
  - destruct (error_eqb ce ErrVolumeAlreadyExists) eqn:He.
    + apply error_eqb_eq in He; subst ce.
      pose proof (Create_replay B w opts cv w1 Hc) as H.
      destruct (answer B _ (Service_GetByName (CreateOpts.Name opts)) w1)
        as [found w2].
      rewrite H; simpl. destruct cv; halted.
    + unfold exec, IdempotentService.Create; simpl.
      rewrite Hc; simpl. rewrite He; simpl. destruct cv; halted.
  - unfold exec, IdempotentService.Create; simpl.
    rewrite Hc; simpl. destruct cv; simpl; halted.
Qed.

(** With non-nil arguments [Attach] halts only by the panic on an empty
    answer to the pre-read. *)
Lemma Attach_halts (B : Backend) (w : World B)
      (volume : Volume.t) (server : Server.t) (h : halt) :
  fst (fst (exec B (IdempotentService.Attach volume server) w)) = Halted h
  <-> h = Panicked
      /\ answers_something
           (fst (answer B _ (Service_GetByID (Volume.ID volume)) w)) = false.
Proof.
  unfold exec, IdempotentService.Attach; simpl.
  destruct (answer B _ (Service_GetByID (Volume.ID volume)) w)
    as [[vol [e |]] w1]; simpl.
  - destruct vol; halted.
  - destruct vol as [vol |]; simpl; [ | halted].
    destruct (IdempotentService.attached_elsewhere vol server); simpl.
    + destruct (answer B _ (Service_Detach volume) w1) as [de w2].
      destruct (answer B _ (Service_Attach volume server) w2) as [[ae |] w3];
        simpl; [ | halted].
      destruct (IdempotentService.attached_here vol server); halted.
    + destruct (answer B _ (Service_Attach volume server) w1) as [[ae |] w3];
        simpl; [ | halted].
      destruct (IdempotentService.attached_here vol server); halted.
Qed.

(** A lifted program runs as the program does on the backend calls. *)
Lemma execP_lift (B : BackendP) {R : Type} (p : Prog Service R) (w : WorldP B) :
  execP B (lift p) w
  = let '(o, w', tr) := exec (plain_backend B) p w in (o, w', map EvPlain tr).
Proof.
  revert w. induction p as [r | h | X e k IH]; intros w; simpl;
    try reflexivity.
  unfold execP, exec in *; simpl.
  destruct (answerP B X (Plain e) w) as [x w1].
  rewrite IH. simpl.
  destruct (run observe (fun (X0 : Type) (c : Service X0) => answerP B X0 (Plain c))
                (k x) w1) as [[o w2] tr].
  reflexivity.
Qed.


(** X14.  [Create] asks the backend to create first, and looks the name up
    only when the answer is VolumeAlreadyExists.  On any other answer the
    create is the only call: a created volume is returned as it is, and any
    other error is returned with no volume, whatever came with it. *)
Theorem Create_looks_up_only_on_conflict
        (B : Backend) (w : World B) (opts : CreateOpts.t) :
  let (r, w1) := answer B _ (Service_Create opts) w in
  if is_already_exists (snd r)
  then exists found,
      snd (exec B (IdempotentService.Create opts) w)
      = [EvCreate opts r; EvGetByName (CreateOpts.Name opts) found]
  else exec B (IdempotentService.Create opts) w
       = (match r with
          | (_, Some e) => Returned (None, Some e)
          | (Some v, None) => Returned (Some v, success)
          | (None, None) => Halted Panicked
          end, w1, [EvCreate opts r]).
Proof.
  destruct (answer B _ (Service_Create opts) w) as [[cv [ce |]] w1] eqn:Hc;
    unfold is_already_exists; cbn [snd].
  - destruct (error_eqb ce ErrVolumeAlreadyExists) eqn:He.
    + apply error_eqb_eq in He; subst ce.
      pose proof (Create_replay B w opts cv w1 Hc) as H.
      destruct (answer B _ (Service_GetByName (CreateOpts.Name opts)) w1)
        as [found w2].
      exists found. rewrite H. reflexivity.
    + unfold exec, IdempotentService.Create; simpl.
      rewrite Hc; simpl. rewrite He. destruct cv; reflexivity.
  - unfold exec, IdempotentService.Create; simpl.
    rewrite Hc; simpl. destruct cv; reflexivity.
Qed.

(** ** The in-memory backend under the service *)

Section SanityFacts.
Import sanityVolumeService.

Lemma find_by_name_name (name : string) (s : state) (v : Volume.t) :
  find (by_name name) s = Some v -> Volume.Name v = name.
Proof.
  intros H. apply find_some in H as [_ H].
  unfold by_name in H. apply String.eqb_eq in H. exact H.
Qed.

Lemma remove_first_split (id : N) (s s' : state) :
  remove_first id s = Some s' ->
  exists l1 v l2, s = l1 ++ v :: l2 /\ s' = l1 ++ l2.
Proof.
  revert s'. induction s as [| u s IH]; simpl; intros s' H; [discriminate | ].
  destruct (by_id id u).
  - injection H as <-. exists [], u, s. split; reflexivity.
  - destruct (remove_first id s) as [s'' |]; [ | discriminate].
    injection H as <-. destruct (IH s'' eq_refl) as [l1 [v [l2 [-> ->]]]].
    exists (u :: l1), v, l2. split; reflexivity.
Qed.

Lemma remove_first_NoDup {A : Type} (f : Volume.t -> A) (id : N) (s s' : state) :
  remove_first id s = Some s' -> NoDup (map f s) -> NoDup (map f s').
Proof.
  intros H Hs. apply remove_first_split in H as [l1 [v [l2 [-> ->]]]].
  rewrite map_app in *. simpl in Hs. exact (NoDup_remove_1 _ _ _ Hs).
Qed.

Lemma find_by_id_absent (id : N) (s : state) :
  ~ In id (map Volume.ID s) -> find (by_id id) s = None.
Proof.
  induction s as [| v s IH]; simpl; intros H; [reflexivity | ].
  unfold by_id at 1. destruct (N.eqb_spec (Volume.ID v) id) as [Heq | Hne].
  - exfalso; apply H; left; exact Heq.
  - apply IH. intros Hin; apply H; right; exact Hin.
Qed.

Lemma remove_first_gone (id : N) (s s' : state) :
  unique_ids s -> remove_first id s = Some s' -> find (by_id id) s' = None.
Proof.
  unfold unique_ids. revert s'.
  induction s as [| v s IH]; simpl; intros s' Hs H; [discriminate | ].
  inversion Hs as [| ? ? Hnotin Hrest]; subst.
  destruct (by_id id v) eqn:Hv.
  - injection H as <-. apply find_by_id_absent.
    unfold by_id in Hv. apply N.eqb_eq in Hv. subst id. exact Hnotin.
  - destruct (remove_first id s) as [s'' |]; [ | discriminate].
    injection H as <-. simpl. rewrite Hv. apply IH; [exact Hrest | reflexivity].
Qed.

Lemma remove_first_none (id : N) (s : state) :
  remove_first id s = None -> find (by_id id) s = None.
Proof.
  induction s as [| v s IH]; simpl; intros H; [reflexivity | ].
  destruct (by_id id v); [discriminate | ].
  destruct (remove_first id s); [discriminate | ]. apply IH; reflexivity.
Qed.

Lemma remove_first_others (id id' : N) (s s' : state) :
  id' <> id -> remove_first id s = Some s' ->
  find (by_id id') s' = find (by_id id') s.
Proof.
  intros Hne. revert s'.
  induction s as [| v s IH]; simpl; intros s' H; [discriminate | ].
  destruct (by_id id v) eqn:Hv.
  - injection H as <-.
    unfold by_id in Hv. apply N.eqb_eq in Hv.
    unfold by_id at 2. destruct (N.eqb_spec (Volume.ID v) id') as [Heq | _];
      [congruence | reflexivity].
  - destruct (remove_first id s) as [s'' |]; [ | discriminate].
    injection H as <-. simpl. rewrite (IH s'' eq_refl). reflexivity.
Qed.

(** One call to the backend keeps the names distinct. *)
Lemma dispatch_unique_names (X : Type) (c : Service X) (s : state) :
  unique_names s -> unique_names (snd (dispatch X c s)).
Proof.
  intros Hs. destruct c; simpl; try exact Hs.
  - unfold Create.
    destruct (find (by_name (CreateOpts.Name opts)) s) eqn:Hfind; simpl;
      [exact Hs | ].
    apply unique_names_fresh; [exact Hs | ].
    simpl. apply find_by_name_none. exact Hfind.
  - unfold GetByID. destruct (find (by_id id) s); exact Hs.
  - unfold GetByName. destruct (find (by_name name) s); exact Hs.
  - unfold Delete.
    destruct (remove_first (Volume.ID volume) s) as [s' |] eqn:Hrem; simpl;
      [ | exact Hs].
    exact (remove_first_NoDup Volume.Name _ _ _ Hrem Hs).
Qed.

(** A taken name: the replay, with the result as the checks give it. *)
Lemma Create_sanity_held_checked (s : state) (opts : CreateOpts.t)
      (existing : Volume.t) :
  find (by_name (CreateOpts.Name opts)) s = Some existing ->
  exec backend (IdempotentService.Create opts) s
  = (Returned (checked opts existing), s,
     [EvCreate opts (None, Some ErrVolumeAlreadyExists);
      EvGetByName (CreateOpts.Name opts) (Some existing, None)]).
Proof.
  intros Hfind.
  assert (Hcreate : answer backend _ (Service_Create opts) s
                    = ((None, Some ErrVolumeAlreadyExists), s)).
  { simpl. unfold Create. rewrite Hfind. reflexivity. }
  pose proof (Create_replay backend s opts None s Hcreate) as H.
  simpl in H. unfold GetByName in H. rewrite Hfind in H. exact H.
Qed.

End SanityFacts.

(** X15.  On the in-memory backend, with options whose upper bound is not
    below the lower bound: a volume that [Create] returns has the requested
    name and is compatible with the options, and a lookup by that name
    right after returns this very volume. *)
Theorem Create_then_GetByName
        (s s1 : sanityVolumeService.state) (opts : CreateOpts.t)
        (v : Volume.t) (tr : list BackendEvent)
        (Hopts : satisfiable opts)
        (Hexec : exec sanityVolumeService.backend (IdempotentService.Create opts) s
                 = (Returned (Some v, success), s1, tr)) :
  Volume.Name v = CreateOpts.Name opts
  /\ CompatibleWith opts v
  /\ exec sanityVolumeService.backend
          (IdempotentService.GetByName (CreateOpts.Name opts)) s1
     = (Returned (Some v, success), s1,
        [EvGetByName (CreateOpts.Name opts) (Some v, None)]).
Proof.
  assert (Hlookup : forall s2 : sanityVolumeService.state,
             find (sanityVolumeService.by_name (CreateOpts.Name opts)) s2 = Some v ->
             exec sanityVolumeService.backend
                  (IdempotentService.GetByName (CreateOpts.Name opts)) s2
             = (Returned (Some v, success), s2,
                [EvGetByName (CreateOpts.Name opts) (Some v, None)])).
  { intros s2 H. unfold exec, IdempotentService.GetByName, call; simpl.
    unfold sanityVolumeService.GetByName. rewrite H. reflexivity. }
  destruct (find (sanityVolumeService.by_name (CreateOpts.Name opts)) s)
    as [existing |] eqn:Hfind.
  - rewrite (Create_sanity_held_checked s opts existing Hfind) in Hexec.
    injection Hexec as Hr <- _.
    assert (Hv : v = existing)
      by (apply (checked_returns opts existing v); rewrite Hr; reflexivity).
    subst existing.
    split; [exact (find_by_name_name _ _ _ Hfind) | ].
    split; [apply checked_compatible; exact Hr | ].
    apply Hlookup. exact Hfind.
  - pose proof (Create_sanity_free s opts Hfind) as Hfree. cbv zeta in Hfree.
    rewrite Hfree in Hexec. injection Hexec as <- <- _.
    split; [reflexivity | ].
    split.
    + unfold CompatibleWith, satisfiable in *; simpl.
      split; [lia | split; [lia | reflexivity]].
    + apply Hlookup. apply find_by_name_fresh; [exact Hfind | reflexivity].
Qed.

Lemma Create_then_GetByName_witness :
  Volume.Name Examples.X10 = CreateOpts.Name Examples.X_min10
  /\ CompatibleWith Examples.X_min10 Examples.X10
  /\ exec sanityVolumeService.backend
          (IdempotentService.GetByName (CreateOpts.Name Examples.X_min10))
          [Examples.X10]
     = (Returned (Some Examples.X10, success), [Examples.X10],
        [EvGetByName (CreateOpts.Name Examples.X_min10) (Some Examples.X10, None)]).
Proof.
  apply (Create_then_GetByName [] [Examples.X10] Examples.X_min10 Examples.X10
           [EvCreate Examples.X_min10 (Some Examples.X10, None)]).
  - unfold satisfiable; simpl; lia.
  - reflexivity.
Defined.

(** X16.  Whatever sequence of backend calls a program makes, the in-memory
    backend keeps the names of its volumes distinct: if they are distinct
    before the program runs they are distinct after it, however it ends. *)
Theorem sanity_keeps_names_unique
        {R : Type} (p : Prog Service R) (s : sanityVolumeService.state)
        (Hs : sanityVolumeService.unique_names s) :
  sanityVolumeService.unique_names
    (snd (fst (exec sanityVolumeService.backend p s))).
Proof.
  revert s Hs. induction p as [r | h | X e k IH]; intros s Hs; simpl.
  - exact Hs.
  - exact Hs.
  - unfold exec; simpl.
    pose proof (dispatch_unique_names X e s Hs) as Hstep.
    destruct (sanityVolumeService.dispatch X e s) as [x s1]. simpl in Hstep.
    specialize (IH x s1 Hstep). unfold exec in IH; simpl in IH.
    destruct (run observe sanityVolumeService.dispatch (k x) s1)
      as [[o s2] tr].
    exact IH.
Qed.

Lemma sanity_keeps_names_unique_witness :
  sanityVolumeService.unique_names
    (snd (fst (exec sanityVolumeService.backend
                    (IdempotentService.Create Examples.X_min10) []))).
Proof.
  apply (sanity_keeps_names_unique (IdempotentService.Create Examples.X_min10) []).
  constructor.
Defined.

(** X17.  On the in-memory backend with distinct volume IDs, after
    [Delete] of a volume a read by its ID reports VolumeNotFound, reads by
    every other ID answer as before, and the IDs are still distinct. *)
Theorem Delete_then_GetByID
        (s : sanityVolumeService.state) (volume : Volume.t)
        (Hids : unique_ids s) :
  let s1 := snd (fst (exec sanityVolumeService.backend
                           (IdempotentService.Delete volume) s)) in
  exec sanityVolumeService.backend
       (IdempotentService.GetByID (Volume.ID volume)) s1
  = (Returned (None, Some ErrVolumeNotFound), s1,
     [EvGetByID (Volume.ID volume) (None, Some ErrVolumeNotFound)])
  /\ (forall id, id <> Volume.ID volume ->
                 find (sanityVolumeService.by_id id) s1
                 = find (sanityVolumeService.by_id id) s)
  /\ unique_ids s1.
Proof.
  destruct (Delete_sanity s volume) as [_ Hstate].
  cbv zeta. rewrite Hstate. unfold sanityVolumeService.Delete.
  assert (Hlookup : forall s2 : sanityVolumeService.state,
             find (sanityVolumeService.by_id (Volume.ID volume)) s2 = None ->
             exec sanityVolumeService.backend
                  (IdempotentService.GetByID (Volume.ID volume)) s2
             = (Returned (None, Some ErrVolumeNotFound), s2,
                [EvGetByID (Volume.ID volume) (None, Some ErrVolumeNotFound)])).
  { intros s2 H. unfold exec, IdempotentService.GetByID, call; simpl.
    unfold sanityVolumeService.GetByID. rewrite H. reflexivity. }
  destruct (sanityVolumeService.remove_first (Volume.ID volume) s)
    as [s' |] eqn:Hrem; simpl.
  - split; [apply Hlookup; exact (remove_first_gone _ _ _ Hids Hrem) | ].
    split; [intros id Hne; exact (remove_first_others _ _ _ _ Hne Hrem) | ].
    exact (remove_first_NoDup Volume.ID _ _ _ Hrem Hids).
  - split; [apply Hlookup; exact (remove_first_none _ _ Hrem) | ].
    split; [reflexivity | exact Hids].
Qed.

Lemma Delete_then_GetByID_witness :
  let s1 := snd (fst (exec sanityVolumeService.backend
                           (IdempotentService.Delete Examples.X10)
                           [Examples.X10])) in
  exec sanityVolumeService.backend
       (IdempotentService.GetByID (Volume.ID Examples.X10)) s1
  = (Returned (None, Some ErrVolumeNotFound), s1,
     [EvGetByID (Volume.ID Examples.X10) (None, Some ErrVolumeNotFound)])
  /\ (forall id, id <> Volume.ID Examples.X10 ->
                 find (sanityVolumeService.by_id id) s1
                 = find (sanityVolumeService.by_id id) [Examples.X10])
  /\ unique_ids s1.
Proof.
  apply (Delete_then_GetByID [Examples.X10] Examples.X10).
  unfold unique_ids; simpl. constructor; [intros [] | constructor].
Defined.

(** X18.  On the in-memory backend [Attach] changes nothing, and it succeeds
    exactly when a volume with the given ID is held; otherwise it returns
    VolumeNotFound. *)
Theorem Attach_on_sanity
        (s : sanityVolumeService.state) (volume : Volume.t) (server : Server.t) :
  snd (fst (exec sanityVolumeService.backend
                 (IdempotentService.Attach volume server) s)) = s
  /\ fst (fst (exec sanityVolumeService.backend
                    (IdempotentService.Attach volume server) s))
     = Returned match find (sanityVolumeService.by_id (Volume.ID volume)) s with
                | Some _ => success
                | None => Some ErrVolumeNotFound
                end.
Proof.
  unfold exec, IdempotentService.Attach; simpl.
  unfold sanityVolumeService.GetByID.
  destruct (find (sanityVolumeService.by_id (Volume.ID volume)) s) as [vol |];
    simpl; [ | split; reflexivity].
  destruct (IdempotentService.attached_elsewhere vol server); split; reflexivity.
Qed.
